(** * AI-content detectors: a shallow embedding of the legacy detection engine

    Source files embedded here:
      - [docs/legacy/image_detector.py]  (class [ImageAIDetector])
      - [docs/legacy/text_detector.py]   (class [TextAIDetector])

    Conventions of the embedding.
      - Python [float] values are modelled by the real numbers [R]; the
        decimal literals of the source are the corresponding exact reals.
      - Python [int] values ([len] results, counters) are modelled by [nat]
        and [Z].
        The concrete scenarios are evaluated a second time on IEEE
        binary64 values (module [Binary64]), where the decimal literals
        are rounded as Python rounds them.
      - A Python [str] is a list of Unicode code points, a [bytes] object a
        list of bytes.
      - A computation that may raise is a value of type [Result]; the
        [try ... except Exception] blocks of the source are [try_except].
      - The [async]/[await] pairs of the source run to completion without
        interleaving, so they are modelled as ordinary calls. *)

From Stdlib Require Import List Arith ZArith Lia Bool String Ascii DecimalString.
From Stdlib Require Import Reals Lra.
From Stdlib Require PrimFloat.
Import ListNotations.

Set Implicit Arguments.
Open Scope string_scope.
Open Scope list_scope.
Open Scope Z_scope.

(** ** Exceptions and fallible computations *)

Inductive exn : Type :=
| ZeroDivisionError
| ValueError
| KeyError
| IndexError
| AttributeError
| OverflowError
| LibraryError.   (* anything raised inside cv2, numpy, torch, transformers *)

Inductive Result (A : Type) : Type :=
| Ok (a : A)
| Raise (e : exn).

Arguments Ok {A} a.
Arguments Raise {A} e.

Definition bind {A B : Type} (m : Result A) (k : A -> Result B) : Result B :=
  match m with
  | Ok a => k a
  | Raise e => Raise e
  end.

Notation "x <- m ;; k" := (bind m (fun x => k))
  (at level 61, m at next level, right associativity).

(** [try: body except Exception: handler] *)
Definition try_except {A : Type} (body : Result A) (handler : exn -> Result A)
  : Result A :=
  match body with
  | Ok a => Ok a
  | Raise e => handler e
  end.

Definition returns {A : Type} (m : Result A) : Prop := exists a, m = Ok a.

(** ** Python values appearing in result dictionaries *)

Definition str := list N.          (* code points *)
Definition bytes := list Byte.byte.

(** Python's [len]. *)
Definition len {A : Type} (l : list A) : Z := Z.of_nat (List.length l).

Definition str_of (s : string) : str :=
  map N_of_ascii (list_ascii_of_string s).

(** Python's [min(a, b)] returns [b] when [b < a] and [a] otherwise;
    [max(a, b)] returns [b] when [b > a] and [a] otherwise. *)
Definition py_min (a b : R) : R := if Rlt_dec b a then b else a.
Definition py_max (a b : R) : R := if Rlt_dec a b then b else a.

(** [clamp x lo hi] is the spec's name for [min(hi, max(lo, x))]. *)
Definition clamp (x lo hi : R) : R := Rmin hi (Rmax lo x).

(** Result dictionaries are association lists in the order of the dict
    literal; [features] holds the writing features of a text (see below). *)
Record WritingFeatures : Type := {
  word_count : Z;
  sentence_count : Z;
  avg_sentence_length : R;
  unique_words : Z;
  vocabulary_diversity : R;
  avg_word_length : R
}.

Inductive pyvalue : Type :=
| VStr (s : string)
| VInt (z : Z)
| VFloat (r : R)
| VFeatures (f : WritingFeatures).

Definition dict := list (string * pyvalue).

Fixpoint dict_get (k : string) (d : dict) : option pyvalue :=
  match d with
  | [] => None
  | (k', v) :: d' => if String.eqb k k' then Some v else dict_get k d'
  end.

Record DetectionResult : Type := {
  ai_probability : R;
  confidence : R;
  analysis : dict
}.

Definition method (r : DetectionResult) : option pyvalue :=
  dict_get "method" (analysis r).

(** ** [image_detector.py] *)

Module ImageAIDetector.

(** A decoded image: the [shape] tuple of the numpy array and its pixels. *)
Record ndarray : Type := {
  shape : list Z;
  pixels : list Z
}.

(** [img.size]: the number of elements. *)
Definition size (img : ndarray) : Z := fold_right Z.mul 1 (shape img).

(** The OpenCV / numpy operations the detector calls.  They live outside the
    repository, so the detector is stated for an arbitrary toolkit; each
    operation may raise. *)
Record Toolkit : Type := {
  (* np.frombuffer + cv2.imdecode(..., IMREAD_COLOR): [None] when the buffer
     is not a decodable image *)
  imdecode : bytes -> Result (option ndarray);
  (* cvtColor, fft2, fftshift, log-magnitude and the two region means of
     _frequency_domain_analysis: (high_freq_mean, low_freq_mean) *)
  frequency_means : ndarray -> Result (R * R);
  (* np.mean(hsv_std), np.mean(lab_std) and edge_density of
     _detect_ai_artifacts *)
  color_edge_stats : ndarray -> Result (R * R * R);
  (* np.mean(var_img) of _analyze_texture_patterns *)
  mean_local_variance : ndarray -> Result R
}.

Section Detector.

Variable cv : Toolkit.

(** [self.opencv_available] *)
Variable opencv_available : bool.

Definition frequency_domain_analysis (img : ndarray) : Result R :=
  try_except
    (m <- frequency_means cv img ;;
     let '(high_freq_mean, low_freq_mean) := m in
     let freq_ratio := (high_freq_mean / (low_freq_mean + 1e-8))%R in
     let normalized_ratio := py_min 1.0 (freq_ratio / 10.0) in
     Ok normalized_ratio)
    (fun _ => Ok 0.5%R).

Definition detect_ai_artifacts (img : ndarray) : Result R :=
  try_except
    (m <- color_edge_stats cv img ;;
     let '(hsv_std_mean, lab_std_mean, edge_density) := m in
     let color_uniformity := (1.0 - (hsv_std_mean + lab_std_mean) / 255.0)%R in
     let edge_consistency := (1.0 - edge_density)%R in
     let artifact_score := (color_uniformity * 0.6 + edge_consistency * 0.4)%R in
     Ok (py_max 0.0 (py_min 1.0 artifact_score)))
    (fun _ => Ok 0.5%R).

Definition analyze_metadata (image_data : bytes) : Result R :=
  try_except
    (let size := len image_data in
     if size <? 10000 then Ok 0.3%R
     else if size <? 50000 then Ok 0.5%R
     else if size <? 200000 then Ok 0.6%R
     else if size <? 1000000 then Ok 0.7%R
     else Ok 0.8%R)
    (fun _ => Ok 0.5%R).

Definition analyze_texture_patterns (img : ndarray) : Result R :=
  try_except
    (v <- mean_local_variance cv img ;;
     let texture_uniformity := (1.0 - v / 255.0)%R in
     Ok (py_max 0.0 (py_min 1.0 texture_uniformity)))
    (fun _ => Ok 0.5%R).

(** [img] is never [None] where this is called; [height, width =
    img.shape[:2]] raises when the shape has fewer than two entries. *)
Definition calculate_confidence (img : ndarray) : Result R :=
  if size img =? 0 then Ok 0.3%R
  else match shape img with
       | height :: width :: _ =>
           if (height <? 64) || (width <? 64) then Ok 0.4%R
           else if (height <? 256) || (width <? 256) then Ok 0.6%R
           else if (height <? 1024) || (width <? 1024) then Ok 0.8%R
           else Ok 0.9%R
       | _ => Raise ValueError
       end.

Definition fallback_result : DetectionResult :=
  {| ai_probability := 0.5;
     confidence := 0.3;
     analysis := [("method", VStr "fallback")] |}.

Definition basic_detection (image_data : bytes) : Result DetectionResult :=
  try_except
    (let size := len image_data in
     metadata_score <- analyze_metadata image_data ;;
     let ai_probability := py_min 0.8 (py_max 0.2 metadata_score) in
     let confidence := 0.5%R in
     Ok {| ai_probability := ai_probability;
           confidence := confidence;
           analysis := [("method", VStr "basic");
                        ("file_size", VInt size);
                        ("metadata_score", VFloat metadata_score)] |})
    (fun _ => Ok fallback_result).

(** [f"{n}"] for an array dimension. *)
Definition decimal (n : Z) : string :=
  NilEmpty.string_of_uint (N.to_uint (Z.to_N n)).

Definition advanced_detection (image_data : bytes) : Result DetectionResult :=
  try_except
    (decoded <- imdecode cv image_data ;;
     match decoded with
     | None => basic_detection image_data
     | Some img =>
         frequency_score <- frequency_domain_analysis img ;;
         artifact_score <- detect_ai_artifacts img ;;
         metadata_score <- analyze_metadata image_data ;;
         texture_score <- analyze_texture_patterns img ;;
         let ai_probability :=
           (frequency_score * 0.35 + artifact_score * 0.25 +
            metadata_score * 0.20 + texture_score * 0.20)%R in
         confidence <- calculate_confidence img ;;
         match shape img with
         | h :: w :: rest =>
             Ok {| ai_probability := ai_probability;
                   confidence := confidence;
                   analysis :=
                     [("method", VStr "advanced_cv");
                      ("frequency_analysis", VFloat frequency_score);
                      ("artifact_detection", VFloat artifact_score);
                      ("metadata_analysis", VFloat metadata_score);
                      ("texture_analysis", VFloat texture_score);
                      ("image_size", VStr (decimal w ++ "x" ++ decimal h)%string);
                      ("channels", VInt (match rest with
                                         | c :: _ => c
                                         | [] => 1
                                         end))] |}
         | _ => Raise IndexError
         end
     end)
    (fun _ => basic_detection image_data).

Definition detect (image_data : bytes) : Result DetectionResult :=
  if opencv_available then advanced_detection image_data
  else basic_detection image_data.

End Detector.

(** A toolkit whose decoder recognises no format at all: every buffer is
    garbage to it, as arbitrary bytes are to [cv2.imdecode]. *)
Definition no_codec : Toolkit :=
  {| imdecode := fun _ => Ok None;
     frequency_means := fun _ => Raise LibraryError;
     color_edge_stats := fun _ => Raise LibraryError;
     mean_local_variance := fun _ => Raise LibraryError |}.

End ImageAIDetector.

(** ** Strings: the [str] and [re] operations used by the text detector *)

(** Python 3 strings are Unicode.  On ASCII code points the classes below
    are those of CPython; beyond ASCII they are read from the Unicode
    database, which the embedding takes as given. *)
Record UnicodeDB : Type := {
  (* [\w] on a code point >= 128 *)
  unicode_word : N -> bool;
  (* [str.isspace] on a code point >= 128 *)
  unicode_space : N -> bool;
  (* [str.lower] on a string holding a code point >= 128 *)
  unicode_lower : str -> str
}.

Definition between (lo hi c : N) : bool := ((lo <=? c) && (c <=? hi))%N.

(** [[A-Za-z0-9_]] *)
Definition ascii_word (c : N) : bool :=
  between 48 57 c || between 65 90 c || (c =? 95)%N || between 97 122 c.

(** tab, LF, VT, FF, CR, FS, GS, RS, US and the space *)
Definition ascii_space (c : N) : bool :=
  between 9 13 c || between 28 32 c.

Definition ascii_lower (c : N) : N :=
  if between 65 90 c then (c + 32)%N else c.

Definition is_ascii (c : N) : bool := (c <? 128)%N.

(** The three sentence terminators of [[.!?]]. *)
Definition is_terminator (c : N) : bool :=
  ((c =? 46) || (c =? 33) || (c =? 63))%N.

Definition space : N := 32%N.

Section Strings.

Variable U : UnicodeDB.

Definition is_word (c : N) : bool :=
  if is_ascii c then ascii_word c else unicode_word U c.

Definition is_space (c : N) : bool :=
  if is_ascii c then ascii_space c else unicode_space U c.

(** [s.lower()] *)
Definition lower (s : str) : str :=
  if forallb is_ascii s then map ascii_lower s else unicode_lower U s.

(** Maximal runs of the characters satisfying [p], left to right; [cur]
    holds the run being read, reversed. *)
Fixpoint runs_from (p : N -> bool) (cur : str) (s : str) : list str :=
  match s with
  | [] => match cur with
          | [] => []
          | _ => [rev cur]
          end
  | c :: s' =>
      if p c then runs_from p (c :: cur) s'
      else match cur with
           | [] => runs_from p [] s'
           | _ => rev cur :: runs_from p [] s'
           end
  end.

Definition runs (p : N -> bool) (s : str) : list str := runs_from p [] s.

(** [re.findall(r'\b\w+\b', s)]: the maximal runs of word characters. *)
Definition findall_words (s : str) : list str := runs is_word s.

(** [s.split()]: the maximal runs of non-blank characters. *)
Definition split (s : str) : list str := runs (fun c => negb (is_space c)) s.

(** [re.split(r'[.!?]+', s)]: the pieces between maximal runs of
    terminators; a leading or trailing run leaves an empty piece. *)
Fixpoint re_split_from (cur : str) (in_sep : bool) (s : str) : list str :=
  match s with
  | [] => [rev cur]
  | c :: s' =>
      if is_terminator c then
        if in_sep then re_split_from [] true s'
        else rev cur :: re_split_from [] true s'
      else re_split_from (c :: cur) false s'
  end.

Definition re_split (s : str) : list str := re_split_from [] false s.

Fixpoint dropwhile (p : N -> bool) (s : str) : str :=
  match s with
  | [] => []
  | c :: s' => if p c then dropwhile p s' else s
  end.

(** [s.strip()] *)
Definition strip (s : str) : str :=
  rev (dropwhile is_space (rev (dropwhile is_space s))).

(** Truth value of a string: non-empty. *)
Definition truthy (s : str) : bool :=
  match s with
  | [] => false
  | _ => true
  end.

End Strings.

(** [sep.join(l)] *)
Fixpoint join (sep : str) (l : list str) : str :=
  match l with
  | [] => []
  | [x] => x
  | x :: l' => x ++ sep ++ join sep l'
  end.

(** [l[i:j]] for [0 <= i <= j] *)
Definition slice {A : Type} (l : list A) (i j : nat) : list A :=
  firstn (j - i) (skipn i l).

(** [range(n)] for an [int] [n]; empty when [n <= 0]. *)
Definition range (n : Z) : list nat := seq 0 (Z.to_nat n).

Definition str_eq_dec : forall a b : str, {a = b} + {a <> b} :=
  list_eq_dec N.eq_dec.

(** [set(l)], as the list of its distinct elements. *)
Definition set (l : list str) : list str := nodup str_eq_dec l.

(** ** Arithmetic that can raise *)

(** [a / b] on Python numbers: true division, [ZeroDivisionError] on a zero
    divisor. *)
Definition py_div (a b : R) : Result R :=
  if Req_dec_T b 0 then Raise ZeroDivisionError else Ok (a / b)%R.

(** [math.log x]: [ValueError] outside the domain. *)
Definition math_log (x : R) : Result R :=
  if Rlt_dec 0 x then Ok (ln x) else Raise ValueError.

(** [math.exp x] raises [OverflowError] when the result exceeds the largest
    double, that is for [x] above 709.78...; the model raises from 709 on,
    which is no later. *)
Definition math_exp (x : R) : Result R :=
  if Rlt_dec 709 x then Raise OverflowError else Ok (exp x).

Definition sum_R (l : list R) : R := fold_right Rplus 0%R l.

(** [np.mean] and [np.std] (the population standard deviation) of a list
    of integers; numpy divides without raising. *)
Definition np_mean_R (l : list R) : R := (sum_R l / IZR (len l))%R.

Definition np_mean (l : list Z) : R := np_mean_R (map IZR l).

Definition np_std (l : list Z) : R :=
  let m := np_mean l in
  sqrt (np_mean_R (map (fun x => (IZR x - m) * (IZR x - m))%R l)).

(** ** The bigram frequency table: a Python [dict] from strings to counts *)

Definition freq_table := list (str * Z).

Fixpoint freq_get (k : str) (d : freq_table) (default : Z) : Z :=
  match d with
  | [] => default
  | (k', v) :: d' => if str_eq_dec k k' then v else freq_get k d' default
  end.

(** [d[k] = v] *)
Fixpoint freq_set (k : str) (v : Z) (d : freq_table) : freq_table :=
  match d with
  | [] => [(k, v)]
  | (k', v') :: d' =>
      if str_eq_dec k k' then (k', v) :: d' else (k', v') :: freq_set k v d'
  end.

(** [d[k]], [KeyError] for a missing key *)
Fixpoint freq_index (k : str) (d : freq_table) : Result Z :=
  match d with
  | [] => Raise KeyError
  | (k', v) :: d' => if str_eq_dec k k' then Ok v else freq_index k d'
  end.

(** ** [text_detector.py] *)

Module TextAIDetector.

(** The value of [torch.softmax(logits, dim=-1)]: one row of class
    probabilities per input of the batch. *)
Definition Tensor := list (list R).

(** What the detector uses of torch and transformers; both live outside the
    repository. *)
Record Torch : Type := {
  (* self.tokenizer(text, ...), self.model( **inputs ).logits and
     torch.softmax(logits, dim=-1), in this order *)
  forward : str -> Result Tensor;
  (* the expression [t.get("word_count", 0)] on a value [t] returned by
     torch.softmax: the lookup of the attribute [get], then its call *)
  tensor_get_word_count : Tensor -> Result Z
}.

(** The detector object: the module flag [TRANSFORMERS_AVAILABLE] read by
    [detect] and the handle [self.model] ([None] when nothing was loaded). *)
Record Detector : Type := {
  transformers_available : bool;
  model : option Torch
}.

(** The second argument [_calculate_confidence] receives: the features
    dictionary on the heuristic path, the probabilities tensor on the ML
    path. *)
Inductive features_arg : Type :=
| Features (f : WritingFeatures)
| Probabilities (t : Tensor) (lib : Torch).

Section Analyzers.

Variable U : UnicodeDB.

Definition bigrams_of (words : list str) : list str :=
  map (fun i => join [space] (slice words i (i + 2))) (range (len words - 1)).

Definition trigrams_of (words : list str) : list str :=
  map (fun i => join [space] (slice words i (i + 3))) (range (len words - 2)).

(** The sentences that survive [if s.strip()]. *)
Definition nonblank_sentences (text : str) : list str :=
  filter (fun s => truthy (strip U s)) (re_split (strip U text)).

Definition extract_writing_features (text : str) : Result WritingFeatures :=
  let sentences := re_split (strip U text) in
  let words := findall_words U (lower U text) in
  let kept := filter (fun s => truthy (strip U s)) sentences in
  asl <- py_div (IZR (len words)) (IZR (Z.max (len kept) 1)) ;;
  vd <- py_div (IZR (len (set words))) (IZR (Z.max (len words) 1)) ;;
  awl <- py_div (IZR (fold_right Z.add 0 (map len words)))
                (IZR (Z.max (len words) 1)) ;;
  Ok {| word_count := len words;
        sentence_count := len kept;
        avg_sentence_length := asl;
        unique_words := len (set words);
        vocabulary_diversity := vd;
        avg_word_length := awl |}.

Definition analyze_repetition (text : str) : Result R :=
  let words := findall_words U (lower U text) in
  if len words <? 10 then Ok 0.5%R
  else
    let bigrams := bigrams_of words in
    let trigrams := trigrams_of words in
    let bigram_repetition := len bigrams - len (set bigrams) in
    let trigram_repetition := len trigrams - len (set trigrams) in
    repetition_score <-
      py_div (IZR (bigram_repetition + trigram_repetition))
             (IZR (Z.max (len words) 1)) ;;
    Ok (py_min 1.0 (repetition_score * 10)).

Definition analyze_vocabulary_diversity (text : str) : Result R :=
  let words := findall_words U (lower U text) in
  if len words <? 5 then Ok 0.5%R
  else
    unique_ratio <- py_div (IZR (len (set words))) (IZR (len words)) ;;
    Ok (1.0 - unique_ratio)%R.

Definition analyze_sentence_structure (text : str) : Result R :=
  let sentences := re_split (strip U text) in
  let sentences :=
    map (strip U) (filter (fun s => truthy (strip U s)) sentences) in
  if len sentences <? 2 then Ok 0.5%R
  else
    let lengths := map (fun s => len (split U s)) sentences in
    let mean_length := np_mean lengths in
    let std_length := np_std lengths in
    let cv := if Rlt_dec 0 mean_length
              then (std_length / mean_length)%R else 1.0%R in
    Ok (py_max 0.0 (1.0 - cv)).

(** The first loop of [_calculate_perplexity]; one iteration is
    [bigram_freq[bigram] = bigram_freq.get(bigram, 0) + 1]. *)
Definition count_bigram (bigram_freq : freq_table) (bigram : str)
  : freq_table :=
  freq_set bigram (freq_get bigram bigram_freq 0 + 1) bigram_freq.

Definition count_bigrams (bigrams : list str) : freq_table :=
  fold_left count_bigram bigrams [].

(** The second loop: [total_prob] after the bigrams [todo], starting from
    [total_prob]. *)
Fixpoint sum_log_probs (bigram_freq : freq_table) (n : Z) (todo : list str)
    (total_prob : R) : Result R :=
  match todo with
  | [] => Ok total_prob
  | bigram :: todo' =>
      count <- freq_index bigram bigram_freq ;;
      prob <- py_div (IZR count) (IZR n) ;;
      term <- (if Rlt_dec 0 prob then math_log prob else Ok (-10)%R) ;;
      sum_log_probs bigram_freq n todo' (total_prob + term)
  end.

Definition calculate_perplexity (text : str) : Result R :=
  let words := findall_words U (lower U text) in
  if len words <? 10 then Ok 0.5%R
  else
    let bigrams := bigrams_of words in
    let bigram_freq := count_bigrams bigrams in
    total_prob <- sum_log_probs bigram_freq (len bigrams) bigrams 0 ;;
    avg_log_prob <- py_div total_prob (IZR (len bigrams)) ;;
    perplexity <- math_exp (- avg_log_prob) ;;
    let normalized_perplexity :=
      py_max 0.0 (py_min 1.0 (1.0 - perplexity / 100)) in
    Ok normalized_perplexity.

(** [features.get("word_count", 0)] *)
Definition get_word_count (features : features_arg) : Result Z :=
  match features with
  | Features f => Ok (word_count f)
  | Probabilities t lib => tensor_get_word_count lib t
  end.

Definition calculate_confidence (text : str) (features : features_arg)
  : Result R :=
  word_count <- get_word_count features ;;
  if word_count <? 10 then Ok 0.3%R
  else if word_count <? 50 then Ok 0.6%R
  else if word_count <? 200 then Ok 0.8%R
  else Ok 0.9%R.

Definition heuristic_detection (text : str) : Result DetectionResult :=
  features <- extract_writing_features text ;;
  let ai_score := 0.0%R in
  let total_weight := 0.0%R in
  repetition_score <- analyze_repetition text ;;
  let ai_score := (ai_score + repetition_score * 0.3)%R in
  let total_weight := (total_weight + 0.3)%R in
  vocab_score <- analyze_vocabulary_diversity text ;;
  let ai_score := (ai_score + vocab_score * 0.2)%R in
  let total_weight := (total_weight + 0.2)%R in
  structure_score <- analyze_sentence_structure text ;;
  let ai_score := (ai_score + structure_score * 0.25)%R in
  let total_weight := (total_weight + 0.25)%R in
  perplexity_score <- calculate_perplexity text ;;
  let ai_score := (ai_score + perplexity_score * 0.25)%R in
  let total_weight := (total_weight + 0.25)%R in
  normalized <- py_div ai_score total_weight ;;
  let ai_probability := py_min 1.0 (py_max 0.0 normalized) in
  confidence <- calculate_confidence text (Features features) ;;
  Ok {| ai_probability := ai_probability;
        confidence := confidence;
        analysis := [("method", VStr "heuristic");
                     ("features", VFeatures features);
                     ("repetition_score", VFloat repetition_score);
                     ("vocab_score", VFloat vocab_score);
                     ("structure_score", VFloat structure_score);
                     ("perplexity", VFloat perplexity_score)] |}.

(** [float(probabilities[0][-1])] *)
Definition last_probability (probabilities : Tensor) : Result R :=
  match probabilities with
  | [] => Raise IndexError
  | row :: _ => match rev row with
                | [] => Raise IndexError
                | p :: _ => Ok p
                end
  end.

Definition calculate_ai_probability (text : str) (probabilities : Tensor)
  : Result R :=
  try_except
    (base_prob <- last_probability probabilities ;;
     features <- extract_writing_features text ;;
     repetition_score <- analyze_repetition text ;;
     vocab_score <- analyze_vocabulary_diversity text ;;
     let heuristic_score :=
       (repetition_score * 0.4 + vocab_score * 0.3 +
        (1.0 - vocabulary_diversity features) * 0.3)%R in
     let final_prob := (base_prob * 0.7 + heuristic_score * 0.3)%R in
     Ok (py_min 1.0 (py_max 0.0 final_prob)))
    (fun _ => Ok 0.5%R).

(** The [try] block of [_ml_detection]. *)
Definition ml_attempt (lib : Torch) (text : str) : Result DetectionResult :=
  probabilities <- forward lib text ;;
  ai_prob <- calculate_ai_probability text probabilities ;;
  confidence <- calculate_confidence text (Probabilities probabilities lib) ;;
  features <- extract_writing_features text ;;
  perplexity <- calculate_perplexity text ;;
  Ok {| ai_probability := ai_prob;
        confidence := confidence;
        analysis := [("method", VStr "ml_model");
                     ("model", VStr "transformers");
                     ("features", VFeatures features);
                     ("perplexity", VFloat perplexity)] |}.

Definition ml_detection (lib : Torch) (text : str) : Result DetectionResult :=
  try_except (ml_attempt lib text) (fun _ => heuristic_detection text).

Definition detect (self : Detector) (text : str) : Result DetectionResult :=
  match transformers_available self, model self with
  | true, Some lib => ml_detection lib text
  | _, _ => heuristic_detection text
  end.

End Analyzers.

End TextAIDetector.

(** ** [api_v1_detection.py]: the routes in front of the detectors *)

Module Routes.

(** The parameters of one [INSERT INTO content_scans]; the columns a route
    does not name stay [NULL]. *)
Record ScanRow : Type := {
  content_type : string;
  content : option str;
  file_path : option string;
  url : option string;
  row_ai_probability : R;
  row_confidence : R;
  row_analysis : string
}.

(** What a route has got the database session to do, in order. *)
Inductive db_command : Type :=
| Execute (row : ScanRow)
| Commit.

(** The database session of a request: [await db.execute(INSERT ...)] and
    [await db.commit()]; either may raise. *)
Record Session : Type := {
  execute : ScanRow -> Result unit;
  commit : Result unit
}.

(** The outcome of a request: the returned body, an [HTTPException] raised
    by the body, the refusal of [@limiter.limit] before the body runs, or
    an exception nobody catches.  The database commands are those that
    completed. *)
Inductive Response (A : Type) : Type :=
| Return (body : A) (db : list db_command)
| HTTPException (status : Z) (detail : string)
| RateLimitExceeded
| Unhandled (e : exn) (db : list db_command).

Arguments Return {A} body db.
Arguments HTTPException {A} status detail.
Arguments RateLimitExceeded {A}.
Arguments Unhandled {A} e db.

(** A FastAPI [UploadFile]: the declared content type, the file name and
    the outcome of [await file.read()]. *)
Record UploadFile : Type := {
  upload_content_type : option string;
  filename : option string;
  read : Result bytes
}.

Definition allowed_image_types : list string :=
  ["image/jpeg"; "image/png"; "image/webp"].

(** The rows the two routes insert. *)
Definition text_row (text : str) (result : DetectionResult)
    (analysis_json : string) : ScanRow :=
  {| content_type := "text";
     content := Some (firstn 1000 text);
     file_path := None;
     url := None;
     row_ai_probability := ai_probability result;
     row_confidence := confidence result;
     row_analysis := analysis_json |}.

Definition image_row (file : UploadFile) (result : DetectionResult)
    (analysis_json : string) : ScanRow :=
  {| content_type := "image";
     content := None;
     file_path := filename file;
     url := None;
     row_ai_probability := ai_probability result;
     row_confidence := confidence result;
     row_analysis := analysis_json |}.

Section Routes.

Variable U : UnicodeDB.
(** [TextAIDetector()] and [ImageAIDetector()], as the process builds
    them. *)
Variable text_detector : TextAIDetector.Detector.
Variable cv : ImageAIDetector.Toolkit.
Variable opencv_available : bool.
(** [json.dumps], which raises on a value it cannot encode, and
    [settings.MAX_FILE_SIZE] *)
Variable json_dumps : dict -> Result string.
Variable MAX_FILE_SIZE : Z.
(** Whether the limit of [@limiter.limit] is used up for this client. *)
Variable limit_exceeded : bool.
Variable db : Session.

(** The dictionary of parameters is built, [json.dumps] included, before
    [db.execute] is called. *)
Definition save (row : string -> ScanRow) (result : DetectionResult)
  : Response DetectionResult :=
  match json_dumps (analysis result) with
  | Raise e => Unhandled e []
  | Ok analysis_json =>
      match execute db (row analysis_json) with
      | Raise e => Unhandled e []
      | Ok _ =>
          match commit db with
          | Raise e => Unhandled e [Execute (row analysis_json)]
          | Ok _ => Return result [Execute (row analysis_json); Commit]
          end
      end
  end.

Definition detect_text (text : str) : Response DetectionResult :=
  if limit_exceeded then RateLimitExceeded
  else if negb (truthy text) || negb (truthy (strip U text)) then
    HTTPException 400 "Empty text"
  else
    match TextAIDetector.detect U text_detector text with
    | Raise e => Unhandled e []
    | Ok result => save (text_row text result) result
    end.

Definition content_type_allowed (t : option string) : bool :=
  match t with
  | Some s => existsb (String.eqb s) allowed_image_types
  | None => false
  end.

Definition detect_image (file : UploadFile) : Response DetectionResult :=
  if limit_exceeded then RateLimitExceeded
  else if negb (content_type_allowed (upload_content_type file)) then
    HTTPException 400 "Unsupported image format"
  else
    match read file with
    | Raise e => Unhandled e []
    | Ok data =>
        if len data >? MAX_FILE_SIZE then HTTPException 400 "File too large"
        else
          match ImageAIDetector.detect cv opencv_available data with
          | Raise e => Unhandled e []
          | Ok result => save (image_row file result) result
          end
    end.

End Routes.

End Routes.

(** A database session that accepts every command, and a [json.dumps]
    that encodes every dictionary. *)
Definition reliable_session : Routes.Session :=
  {| Routes.execute := fun _ => Ok tt; Routes.commit := Ok tt |}.

Definition encodes_everything : dict -> Result string :=
  fun _ => Ok "{}".

(** ** [fastapi_analyze_router.py]: the placeholder analysis *)

Module AnalyzeRouter.

Record Provider : Type := {
  provider_name : string;
  provider_method : string;
  version : string
}.

Record AnalysisResult : Type := {
  result_confidence : Z;
  flags : list string;
  summary : string;
  provider : Provider
}.

Record Analysis : Type := {
  id : string;
  type : string;
  inputLabel : str;
  timestamp : string;
  result : AnalysisResult
}.

(** [int(len(text) / 5)]: the quotient is computed on floats and truncated.
    It is the integer quotient as long as it is below 2^51, and from 98 on
    the [min] hides its exact value. *)
Definition analyze_text (text : str) : Analysis :=
  let confidence := Z.min 98 (Z.max 2 (len text / 5)) in
  {| id := "temp";
     type := "text";
     inputLabel := firstn 80 text;
     timestamp := "";
     result := {| result_confidence := confidence;
                  flags := ["heuristic"];
                  summary := "placeholder";
                  provider := {| provider_name := "ensemble";
                                 provider_method := "heuristic";
                                 version := "0.1.0" |} |} |}.

End AnalyzeRouter.

(** ** The fusion arithmetic on binary64 values *)

Module Binary64.
Import PrimFloat.

(* 0.3, 0.2 and 0.8 are rounded to the nearest double, as in Python. *)
#[local] Set Warnings "-inexact-float".

Definition py_min (a b : PrimFloat.float) : PrimFloat.float :=
  if PrimFloat.ltb b a then b else a.

Definition py_max (a b : PrimFloat.float) : PrimFloat.float :=
  if PrimFloat.ltb a b then b else a.

(** The accumulation and the final clamp of [_heuristic_detection]. *)
Definition heuristic_probability
    (repetition_score vocab_score structure_score perplexity_score
       : PrimFloat.float) : PrimFloat.float :=
  (let ai_score := 0.0 in
   let total_weight := 0.0 in
   let ai_score := ai_score + repetition_score * 0.3 in
   let total_weight := total_weight + 0.3 in
   let ai_score := ai_score + vocab_score * 0.2 in
   let total_weight := total_weight + 0.2 in
   let ai_score := ai_score + structure_score * 0.25 in
   let total_weight := total_weight + 0.25 in
   let ai_score := ai_score + perplexity_score * 0.25 in
   let total_weight := total_weight + 0.25 in
   py_min 1.0 (py_max 0.0 (ai_score / total_weight)))%float.

(** The clamp of [_basic_detection]. *)
Definition basic_probability (metadata_score : PrimFloat.float)
  : PrimFloat.float :=
  (py_min 0.8 (py_max 0.2 metadata_score))%float.

End Binary64.

(** ** Concrete inputs used in the examples *)

(** A Unicode database that is never consulted on ASCII text. *)
Definition ascii_only : UnicodeDB :=
  {| unicode_word := fun _ => false;
     unicode_space := fun _ => false;
     unicode_lower := fun s => s |}.

(** A softmax output as torch returns it: a tensor, which has no attribute
    [get]. *)
Definition tensor_model : TextAIDetector.Torch :=
  {| TextAIDetector.forward := fun _ => Ok [[0.5%R; 0.5%R]];
     TextAIDetector.tensor_get_word_count := fun _ => Raise AttributeError |}.

(** A stand-in whose output answers [get("word_count", 0)] with the default,
    as a dictionary without that key would. *)
Definition dict_like_model : TextAIDetector.Torch :=
  {| TextAIDetector.forward := fun _ => Ok [[0.5%R; 0.5%R]];
     TextAIDetector.tensor_get_word_count := fun _ => Ok 0 |}.

Definition heuristic_detector : TextAIDetector.Detector :=
  {| TextAIDetector.transformers_available := false;
     TextAIDetector.model := None |}.

Definition unloaded_detector : TextAIDetector.Detector :=
  {| TextAIDetector.transformers_available := true;
     TextAIDetector.model := None |}.

Definition ml_detector (lib : TextAIDetector.Torch) : TextAIDetector.Detector :=
  {| TextAIDetector.transformers_available := true;
     TextAIDetector.model := Some lib |}.

Definition hi : str := str_of "hi".

(** Fifty words in which the bigram "a b" occurs twenty times, and fifty
    words that are all different. *)
Definition repetitive_text : str :=
  str_of "a b a b a b a b a b a b a b a b a b a b a b a b a b a b a b a b a b a b a b a b c0 c1 c2 c3 c4 c5 c6 c7 c8 c9".

Definition varied_text : str :=
  str_of "w0 w1 w2 w3 w4 w5 w6 w7 w8 w9 w10 w11 w12 w13 w14 w15 w16 w17 w18 w19 w20 w21 w22 w23 w24 w25 w26 w27 w28 w29 w30 w31 w32 w33 w34 w35 w36 w37 w38 w39 w40 w41 w42 w43 w44 w45 w46 w47 w48 w49".

(** One word, then an emoticon after the terminator. *)
Definition hi_smiley : str := str_of "hi! :)".

(** A toolkit that decodes every buffer to the same 128 x 96 colour image
    and whose analysis primitives all fail. *)
Definition failing_analysis : ImageAIDetector.Toolkit :=
  {| ImageAIDetector.imdecode := fun _ =>
       Ok (Some {| ImageAIDetector.shape := [96; 128; 3];
                   ImageAIDetector.pixels := [] |});
     ImageAIDetector.frequency_means := fun _ => Raise LibraryError;
     ImageAIDetector.color_edge_stats := fun _ => Raise LibraryError;
     ImageAIDetector.mean_local_variance := fun _ => Raise LibraryError |}.

(** One garbage byte, and a payload of 5,000 bytes. *)
Definition garbage : bytes := [Byte.x00].
Definition payload_5000 : bytes := repeat Byte.xff (Z.to_nat 5000).

(** ** Auxiliary definitions used in the statements *)

(** A CPython string holds at most [sys.maxsize] = 2^63 - 1 code points. *)
Definition fits_in_memory (s : str) : Prop := len s < 2 ^ 63.

(** The step function of the word count, in the spec's words: below 10
    words 0.3, below 50 0.6, below 200 0.8, otherwise 0.9. *)
Definition confidence_step (word_count : Z) : R :=
  if word_count <? 10 then 0.3
  else if word_count <? 50 then 0.6
  else if word_count <? 200 then 0.8
  else 0.9.

(** The fusion of the heuristic tier, in the spec's words. *)
Definition fusion (repetition vocab structure perplexity : R) : R :=
  clamp (0.3 * repetition + 0.2 * vocab + 0.25 * structure +
         0.25 * perplexity) 0 1.

(** The dictionary the heuristic tier returns for given intermediate
    values. *)
Definition heuristic_result (f : WritingFeatures) (rep voc st pp : R)
  : DetectionResult :=
  {| ai_probability := fusion rep voc st pp;
     confidence := confidence_step (word_count f);
     analysis := [("method", VStr "heuristic");
                  ("features", VFeatures f);
                  ("repetition_score", VFloat rep);
                  ("vocab_score", VFloat voc);
                  ("structure_score", VFloat st);
                  ("perplexity", VFloat pp)] |}.

(** What the spec asks of an ML-tier payload: the method tag ["ml_model"],
    the writing features, and the four signal scores under their names. *)
Definition reports_ml_signals (r : DetectionResult) : Prop :=
  method r = Some (VStr "ml_model") /\
  (exists f, dict_get "features" (analysis r) = Some (VFeatures f)) /\
  (exists x, dict_get "repetition_score" (analysis r) = Some (VFloat x)) /\
  (exists x, dict_get "vocab_score" (analysis r) = Some (VFloat x)) /\
  (exists x, dict_get "structure_score" (analysis r) = Some (VFloat x)) /\
  (exists x, dict_get "perplexity" (analysis r) = Some (VFloat x)).



(** The average log-probability of the bigrams of a text under their own
    relative frequencies, and the pseudo-perplexity derived from it. *)
Definition mean_log_probability (bigrams : list str) : R :=
  (sum_R (map (fun b => ln (IZR (Z.of_nat (count_occ str_eq_dec bigrams b)) /
                            IZR (len bigrams)))
              bigrams)
   / IZR (len bigrams))%R.

Definition pseudo_perplexity (bigrams : list str) : R :=
  exp (- mean_log_probability bigrams).

(** The confidence of the advanced image tier as a step function of the
    smaller of height and width: below 64 pixels 0.4, below 256 0.6, below
    1024 0.8, otherwise 0.9. *)
Definition image_confidence_step (min_dimension : Z) : R :=
  if min_dimension <? 64 then 0.4
  else if min_dimension <? 256 then 0.6
  else if min_dimension <? 1024 then 0.8
  else 0.9.

(** The log-magnitude spectrum is [log(|F| + 1)], which is never negative;
    so the two region means a real toolkit returns are not negative. *)
Definition nonnegative_spectrum (cv : ImageAIDetector.Toolkit) : Prop :=
  forall img high low,
    ImageAIDetector.frequency_means cv img = Ok (high, low) ->
    (0 <= high)%R /\ (0 <= low)%R.

(** [detect] goes straight to the heuristic tier. *)
Definition heuristic_path (self : TextAIDetector.Detector) : Prop :=
  TextAIDetector.transformers_available self = false \/
  TextAIDetector.model self = None.

(** [k in d] *)
Definition present (k : str) (d : freq_table) : Prop :=
  exists c, freq_index k d = Ok c.

Module ImageSpec.
Import ImageAIDetector.

(** The size buckets of [_analyze_metadata], as a function of the length. *)
Definition bucket (size : Z) : R :=
  if size <? 10000 then 0.3
  else if size <? 50000 then 0.5
  else if size <? 200000 then 0.6
  else if size <? 1000000 then 0.7
  else 0.8.

(** The dictionary the basic tier returns. *)
Definition basic_result (data : bytes) : DetectionResult :=
  {| ai_probability := clamp (bucket (len data)) 0.2 0.8;
     confidence := 0.5;
     analysis := [("method", VStr "basic");
                  ("file_size", VInt (len data));
                  ("metadata_score", VFloat (bucket (len data)))] |}.

(** A buffer is undecodable when [cv2.imdecode] answers [None] for it or
    raises on it. *)
Definition undecodable (cv : Toolkit) (data : bytes) : Prop :=
  imdecode cv data = Ok None \/ exists e, imdecode cv data = Raise e.

End ImageSpec.

(** * Properties *)

(** ** Arithmetic helpers *)

Lemma py_min_spec a b : py_min a b = Rmin a b.
Proof.
  unfold py_min, Rmin.
  destruct (Rlt_dec b a), (Rle_dec a b); try lra.
Qed.

Lemma py_max_spec a b : py_max a b = Rmax a b.
Proof.
  unfold py_max, Rmax.
  destruct (Rlt_dec a b), (Rle_dec a b); try lra.
Qed.

Lemma clamp_bounds x lo hi : (lo <= hi -> lo <= clamp x lo hi <= hi)%R.
Proof.
  intros H. unfold clamp, Rmin, Rmax.
  destruct (Rle_dec lo x); destruct (Rle_dec hi _); lra.
Qed.


Lemma clamp_py x lo hi : py_min hi (py_max lo x) = clamp x lo hi.
Proof. unfold clamp. now rewrite py_min_spec, py_max_spec. Qed.

Lemma returns_ok {A : Type} (a : A) : returns (Ok a).
Proof. now exists a. Qed.

Lemma try_except_returns {A : Type} (body : Result A) handler :
  (forall e, returns (handler e)) -> returns (try_except body handler).
Proof.
  intros H. destruct body as [a|e]; simpl; [apply returns_ok | apply H].
Qed.

(** ** The scenarios on binary64 values

    The values the real-number model gives for "hi", for "hi! :)" and for
    the 5,000-byte payload are the values double-precision arithmetic
    gives. *)

Module Binary64Facts.
Import PrimFloat.

#[local] Set Warnings "-inexact-float".

Lemma binary64_hi :
  Binary64.heuristic_probability 0.5 0.5 0.5 0.5 = 0.5%float.
Proof. reflexivity. Qed.

Lemma binary64_hi_smiley :
  Binary64.heuristic_probability 0.5 0.5 1 0.5 = 0.625%float.
Proof. reflexivity. Qed.

Lemma binary64_payload_5000 : Binary64.basic_probability 0.3 = 0.3%float.
Proof. reflexivity. Qed.

End Binary64Facts.

(** ** The image detector *)

Module ImageFacts.
Import ImageAIDetector ImageSpec.

Lemma analyze_metadata_bucket data :
  analyze_metadata data = Ok (bucket (len data)).
Proof.
  unfold analyze_metadata, bucket.
  repeat (destruct (_ <? _); [reflexivity|]). reflexivity.
Qed.

Lemma bucket_values size :
  In (bucket size) [0.3; 0.5; 0.6; 0.7; 0.8]%R.
Proof.
  unfold bucket. repeat (destruct (_ <? _); [simpl; tauto|]). simpl; tauto.
Qed.

Lemma bucket_clamp size : clamp (bucket size) 0.2 0.8 = bucket size.
Proof.
  pose proof (bucket_values size) as H. simpl in H.
  unfold clamp, Rmin, Rmax.
  destruct (Rle_dec 0.2 (bucket size)); destruct (Rle_dec 0.8 _); lra.
Qed.

Lemma basic_detection_eq data : basic_detection data = Ok (basic_result data).
Proof.
  unfold basic_detection. rewrite analyze_metadata_bucket. simpl.
  now rewrite clamp_py.
Qed.

Lemma advanced_detection_returns cv data : returns (advanced_detection cv data).
Proof.
  unfold advanced_detection. apply try_except_returns.
  intros _. rewrite basic_detection_eq. apply returns_ok.
Qed.

Lemma image_detect_returns cv avail data : returns (detect cv avail data).
Proof.
  unfold detect. destruct avail.
  - apply advanced_detection_returns.
  - rewrite basic_detection_eq. apply returns_ok.
Qed.

Lemma undecodable_basic cv avail data :
  undecodable cv data -> detect cv avail data = Ok (basic_result data).
Proof.
  intros H. unfold detect. destruct avail; [|apply basic_detection_eq].
  unfold advanced_detection.
  destruct H as [H | [e H]]; rewrite H; simpl;
    now rewrite basic_detection_eq.
Qed.

(** C1, as amended.  A non-empty buffer that the decoder rejects is answered
    by the basic tier: [detect] returns, the method is ["basic"], the
    probability is the metadata score clamped to [0.2, 0.8] and the
    confidence is 0.5. *)
Theorem C1_undecodable_image_gets_basic_tier cv avail data :
  data <> [] ->
  undecodable cv data ->
  exists r m,
    detect cv avail data = Ok r /\
    analyze_metadata data = Ok m /\
    method r = Some (VStr "basic") /\
    ai_probability r = clamp m 0.2 0.8 /\
    confidence r = 0.5%R.
Proof.
  intros _ Hund.
  exists (basic_result data), (bucket (len data)).
  split; [now apply undecodable_basic|].
  split; [apply analyze_metadata_bucket|].
  repeat split.
Qed.

Lemma C1_undecodable_image_gets_basic_tier_witness :
  exists r m,
    detect no_codec true garbage = Ok r /\
    analyze_metadata garbage = Ok m /\
    method r = Some (VStr "basic") /\
    ai_probability r = clamp m 0.2 0.8 /\
    confidence r = 0.5%R.
Proof.
  apply C1_undecodable_image_gets_basic_tier.
  - discriminate.
  - left. reflexivity.
Defined.

(** C1 as stated fails: one garbage byte, rejected by the decoder, is not
    answered by the terminal fallback (0.5, 0.3, "fallback") but by the
    basic tier (0.3, 0.5, "basic"). *)
Lemma C1_garbage_is_not_terminal_fallback :
  garbage <> [] /\
  undecodable no_codec garbage /\
  detect no_codec true garbage = Ok (basic_result garbage) /\
  ai_probability (basic_result garbage) = 0.3%R /\
  confidence (basic_result garbage) = 0.5%R /\
  method (basic_result garbage) = Some (VStr "basic") /\
  ~ (exists r, detect no_codec true garbage = Ok r /\
               ai_probability r = 0.5%R /\
               confidence r = 0.3%R /\
               method r = Some (VStr "fallback")).
Proof.
  assert (Hd : detect no_codec true garbage = Ok (basic_result garbage))
    by (apply undecodable_basic; left; reflexivity).
  split; [discriminate|].
  split; [left; reflexivity|].
  split; [exact Hd|].
  split; [apply (bucket_clamp 1)|].
  split; [reflexivity|].
  split; [reflexivity|].
  intros (r & Hr & _ & Hc & _).
  rewrite Hd in Hr. injection Hr as <-. simpl in Hc. lra.
Qed.

(** C6.  In the basic tier, when the metadata step succeeds with score [m],
    the probability is [clamp m 0.2 0.8] and the confidence is 0.5; for a
    payload of exactly 5,000 bytes the score and the probability are 0.3. *)
Theorem C6_basic_tier_clamped_metadata data m :
  data <> [] ->
  analyze_metadata data = Ok m ->
  exists r,
    basic_detection data = Ok r /\
    ai_probability r = clamp m 0.2 0.8 /\
    confidence r = 0.5%R /\
    (len data = 5000 -> m = 0.3%R /\ ai_probability r = 0.3%R).
Proof.
  intros _ Hm. rewrite analyze_metadata_bucket in Hm. injection Hm as <-.
  exists (basic_result data).
  split; [apply basic_detection_eq|].
  split; [reflexivity|]. split; [reflexivity|].
  intros H5000. simpl. rewrite H5000.
  split; [reflexivity | apply (bucket_clamp 5000)].
Qed.

Lemma C6_basic_tier_clamped_metadata_witness :
  len payload_5000 = 5000 /\
  exists r,
    basic_detection payload_5000 = Ok r /\
    ai_probability r = clamp 0.3 0.2 0.8 /\
    confidence r = 0.5%R /\
    (len payload_5000 = 5000 -> 0.3%R = 0.3%R /\ ai_probability r = 0.3%R).
Proof.
  split; [reflexivity|].
  apply (@C6_basic_tier_clamped_metadata payload_5000 0.3%R).
  - discriminate.
  - reflexivity.
Defined.

(** C9.  Whenever the metadata step succeeds its score is one of 0.3, 0.5,
    0.6, 0.7, 0.8; the lower clamp bound 0.2 therefore never applies, and the
    basic-tier probability is the metadata score itself, never 0.2. *)
Theorem C9_lower_clamp_never_active data m :
  analyze_metadata data = Ok m ->
  In m [0.3; 0.5; 0.6; 0.7; 0.8]%R /\
  py_max 0.2 m = m /\
  exists r,
    basic_detection data = Ok r /\
    ai_probability r = m /\
    ai_probability r <> 0.2%R.
Proof.
  intros Hm. rewrite analyze_metadata_bucket in Hm. injection Hm as <-.
  pose proof (bucket_values (len data)) as Hin.
  split; [exact Hin|].
  split.
  - simpl in Hin. unfold py_max. destruct (Rlt_dec _ _); lra.
  - exists (basic_result data).
    split; [apply basic_detection_eq|].
    simpl. rewrite bucket_clamp. split; [reflexivity|].
    simpl in Hin. lra.
Qed.

Lemma C9_lower_clamp_never_active_witness :
  In 0.3%R [0.3; 0.5; 0.6; 0.7; 0.8]%R /\
  py_max 0.2 0.3 = 0.3%R /\
  exists r,
    basic_detection garbage = Ok r /\
    ai_probability r = 0.3%R /\
    ai_probability r <> 0.2%R.
Proof.
  apply (@C9_lower_clamp_never_active garbage 0.3%R).
  reflexivity.
Defined.

End ImageFacts.

(** ** The text detector: every step returns *)

Module TextFacts.
Import TextAIDetector.

Lemma len_nonneg {A : Type} (l : list A) : 0 <= len l.
Proof. unfold len. lia. Qed.

Lemma py_div_ok a b : b <> 0%R -> py_div a b = Ok (a / b)%R.
Proof. intros H. unfold py_div. now destruct (Req_dec_T b 0). Qed.

Lemma py_div_IZR a z : z <> 0 -> py_div a (IZR z) = Ok (a / IZR z)%R.
Proof. intros H. apply py_div_ok. now apply not_0_IZR. Qed.

Lemma runs_from_length p cur s :
  (List.length (runs_from p cur s) <=
   List.length s + match cur with [] => 0 | _ => 1 end)%nat.
Proof.
  revert cur. induction s as [|c s IH]; intros cur; simpl.
  - destruct cur; simpl; lia.
  - destruct (p c).
    + specialize (IH (c :: cur)). simpl in IH. destruct cur; lia.
    + destruct cur; simpl; specialize (IH []); simpl in IH; lia.
Qed.

Lemma runs_length p s : (List.length (runs p s) <= List.length s)%nat.
Proof. unfold runs. pose proof (runs_from_length p [] s). simpl in *. lia. Qed.

(** Two to the [k] is below [exp k]: the size of a string bounds the
    logarithms the perplexity step can reach. *)
Lemma pow2_le_exp (k : nat) : (2 ^ k <= exp (INR k))%R.
Proof.
  induction k as [|k IH].
  - simpl. rewrite exp_0. lra.
  - rewrite S_INR, exp_plus. simpl pow.
    pose proof (exp_ineq1_le 1) as H1.
    pose proof (exp_pos (INR k)) as Hk.
    pose proof (pow_lt 2 k ltac:(lra)) as H2.
    nra.
Qed.

Lemma ln_le_of_lt_pow2 (n : Z) :
  1 <= n -> n < 2 ^ 63 -> (ln (IZR n) <= 63)%R.
Proof.
  intros H1 H2.
  assert (Hpos : (0 < IZR n)%R) by (apply IZR_lt; lia).
  assert (Hle : (IZR n <= exp 63)%R).
  { pose proof (pow2_le_exp 63) as Hp.
    replace (INR 63) with 63%R in Hp by (simpl; lra).
    apply Rle_trans with (2 := Hp).
    replace (2 ^ 63)%R with (IZR (2 ^ 63)).
    - apply IZR_le. lia.
    - now rewrite (pow_IZR 2 63). }
  destruct (Rle_lt_or_eq_dec _ _ Hle) as [Hlt | Heq].
  - apply ln_increasing in Hlt; [|exact Hpos]. rewrite ln_exp in Hlt. lra.
  - rewrite Heq, ln_exp. lra.
Qed.

(** *** The bigram table holds the number of occurrences of each bigram *)

Lemma freq_get_set k k' v d :
  freq_get k (freq_set k' v d) 0 = if str_eq_dec k k' then v else freq_get k d 0.
Proof.
  induction d as [|[k0 v0] d IH]; simpl.
  - destruct (str_eq_dec k k'); reflexivity.
  - destruct (str_eq_dec k' k0) as [->|Hne]; simpl.
    + destruct (str_eq_dec k k0); reflexivity.
    + destruct (str_eq_dec k k0) as [->|Hne'].
      * destruct (str_eq_dec k0 k'); congruence.
      * exact IH.
Qed.

Lemma present_set k k' v d :
  k = k' \/ present k d -> present k (freq_set k' v d).
Proof.
  unfold present. induction d as [|[k0 v0] d IH]; simpl; intros H.
  - destruct H as [->|[c Hc]]; [|discriminate].
    destruct (str_eq_dec k' k'); [eauto | congruence].
  - destruct (str_eq_dec k' k0) as [->|Hne]; simpl.
    + destruct (str_eq_dec k k0) as [->|Hne']; [eauto|].
      destruct H as [->|H]; [congruence|exact H].
    + destruct (str_eq_dec k k0) as [->|Hne']; [eauto|].
      apply IH. destruct H as [->|H]; [now left | now right].
Qed.

Lemma present_index k d : present k d -> freq_index k d = Ok (freq_get k d 0).
Proof.
  unfold present. induction d as [|[k0 v0] d IH]; simpl; intros [c Hc].
  - discriminate.
  - destruct (str_eq_dec k k0); [reflexivity | eauto].
Qed.

Lemma fold_count_get l : forall d k,
  freq_get k (fold_left count_bigram l d) 0 =
  freq_get k d 0 + Z.of_nat (count_occ str_eq_dec l k).
Proof.
  induction l as [|a l IH]; intros d k; simpl.
  - lia.
  - rewrite IH. unfold count_bigram. rewrite freq_get_set.
    destruct (str_eq_dec k a) as [Heq|Hne];
      destruct (str_eq_dec a k) as [Heq'|Hne']; try congruence; subst; lia.
Qed.

Lemma fold_count_present l : forall d k,
  In k l \/ present k d -> present k (fold_left count_bigram l d).
Proof.
  induction l as [|a l IH]; intros d k; simpl.
  - intros [[]|H]; exact H.
  - intros [[->|Hin]|Hp]; apply IH.
    + right. apply present_set. now left.
    + now left.
    + right. apply present_set. now right.
Qed.

Lemma count_bigrams_occurrences bigrams b :
  In b bigrams ->
  freq_index b (count_bigrams bigrams) =
  Ok (Z.of_nat (count_occ str_eq_dec bigrams b)).
Proof.
  intros Hin. unfold count_bigrams.
  rewrite present_index by (apply fold_count_present; now left).
  now rewrite fold_count_get.
Qed.

Lemma ln_ratio_lower_bound c n :
  1 <= c -> 1 <= n -> (- ln (IZR n) <= ln (IZR c / IZR n))%R.
Proof.
  intros Hc Hn.
  assert (Hn' : (0 < IZR n)%R) by (apply IZR_lt; lia).
  assert (Hc' : (1 <= IZR c)%R) by (apply IZR_le; lia).
  rewrite <- ln_Rinv by exact Hn'.
  assert (Hinv : (0 < / IZR n)%R) by now apply Rinv_0_lt_compat.
  assert (Hle : (/ IZR n <= IZR c / IZR n)%R) by (unfold Rdiv; nra).
  destruct (Rle_lt_or_eq_dec _ _ Hle) as [Hlt | Heq].
  - left. now apply ln_increasing.
  - rewrite <- Heq. lra.
Qed.

Lemma sum_log_probs_returns d n todo : forall acc,
  1 <= n ->
  (forall b, In b todo -> exists c, freq_index b d = Ok c /\ 1 <= c) ->
  exists t,
    sum_log_probs d n todo acc = Ok t /\
    (acc - INR (List.length todo) * ln (IZR n) <= t)%R.
Proof.
  induction todo as [|b todo IH]; intros acc Hn Hall.
  - exists acc. split; [reflexivity|]. simpl. lra.
  - destruct (Hall b (or_introl eq_refl)) as (c & Hc & Hc1).
    assert (Hn' : (0 < IZR n)%R) by (apply IZR_lt; lia).
    assert (Hpos : (0 < IZR c / IZR n)%R).
    { apply Rdiv_lt_0_compat; [apply IZR_lt; lia | exact Hn']. }
    cbn [sum_log_probs]. rewrite Hc. cbn [bind].
    rewrite py_div_IZR by lia. cbn [bind].
    destruct (Rlt_dec 0 (IZR c / IZR n)) as [_|Hn0]; [|contradiction].
    unfold math_log.
    destruct (Rlt_dec 0 (IZR c / IZR n)) as [_|Hn0]; [|contradiction].
    cbn [bind].
    destruct (IH (acc + ln (IZR c / IZR n))%R Hn) as (t & Ht & Hb).
    { intros b' Hb'. apply Hall. now right. }
    exists t. split; [exact Ht|].
    pose proof (ln_ratio_lower_bound Hc1 Hn) as Hl.
    change (List.length (b :: todo)) with (S (List.length todo)).
    rewrite S_INR. lra.
Qed.
Section Totality.

Variable U : UnicodeDB.

Lemma words_len_le s : len (findall_words U s) <= len s.
Proof. unfold len, findall_words. pose proof (runs_length (is_word U) s). lia. Qed.

Lemma len_bigrams (words : list str) :
  1 <= len words -> len (bigrams_of words) = len words - 1.
Proof.
  intros H. unfold bigrams_of, range, len in *.
  rewrite length_map, length_seq. lia.
Qed.

Lemma extract_writing_features_returns text :
  exists f,
    extract_writing_features U text = Ok f /\
    word_count f = len (findall_words U (lower U text)) /\
    sentence_count f = len (nonblank_sentences U text).
Proof.
  unfold extract_writing_features.
  repeat (rewrite py_div_IZR by lia; cbn [bind]).
  eexists. split; [reflexivity|]. split; reflexivity.
Qed.

Lemma analyze_repetition_returns text :
  exists r, analyze_repetition U text = Ok r.
Proof.
  unfold analyze_repetition. destruct (_ <? _); [eauto|].
  rewrite py_div_IZR by lia. cbn [bind]. eauto.
Qed.

Lemma analyze_vocabulary_diversity_returns text :
  exists r, analyze_vocabulary_diversity U text = Ok r.
Proof.
  unfold analyze_vocabulary_diversity.
  destruct (Z.ltb_spec (len (findall_words U (lower U text))) 5); [eauto|].
  rewrite py_div_IZR by lia. cbn [bind]. eauto.
Qed.

Lemma analyze_sentence_structure_returns text :
  exists r, analyze_sentence_structure U text = Ok r.
Proof.
  unfold analyze_sentence_structure. destruct (_ <? _); eauto.
Qed.

Lemma calculate_perplexity_returns text :
  fits_in_memory (lower U text) ->
  exists r, calculate_perplexity U text = Ok r.
Proof.
  intros Hfit. unfold calculate_perplexity.
  destruct (Z.ltb_spec (len (findall_words U (lower U text))) 10) as [|Hlen]; [eauto|].
  set (words := findall_words U (lower U text)) in *.
  set (bigrams := bigrams_of words).
  assert (Hn : len bigrams = len words - 1) by (apply len_bigrams; lia).
  destruct (@sum_log_probs_returns (count_bigrams bigrams) (len bigrams)
              bigrams 0%R) as (t & Ht & Hb).
  { lia. }
  { intros b Hin. eexists. split.
    - now apply count_bigrams_occurrences.
    - apply (count_occ_In str_eq_dec) in Hin. lia. }
  rewrite Ht. cbn [bind].
  rewrite py_div_IZR by lia. cbn [bind].
  assert (Hbound : (- (t / IZR (len bigrams)) <= 63)%R).
  { assert (Hln : (ln (IZR (len bigrams)) <= 63)%R).
    { apply ln_le_of_lt_pow2; [lia|].
      pose proof (words_len_le (lower U text)). unfold fits_in_memory in Hfit.
      fold words in H. lia. }
    assert (Hpos : (0 < IZR (len bigrams))%R) by (apply IZR_lt; lia).
    replace (INR (List.length bigrams)) with (IZR (len bigrams)) in Hb
      by (unfold len; now rewrite <- INR_IZR_INZ).
    apply Rle_trans with (2 := Hln).
    apply Rmult_le_reg_r with (r := IZR (len bigrams)); [exact Hpos|].
    unfold Rdiv. rewrite Ropp_mult_distr_l, Rmult_assoc, Rinv_l by lra.
    lra. }
  unfold math_exp. destruct (Rlt_dec 709 _); [lra|].
  cbn [bind]. eauto.
Qed.

Lemma calculate_confidence_features text f :
  calculate_confidence text (Features f) = Ok (confidence_step (word_count f)).
Proof.
  unfold calculate_confidence, confidence_step. cbn [get_word_count bind].
  repeat (destruct (_ <? _); [reflexivity|]). reflexivity.
Qed.

Lemma clamp_ext x y lo lo' hi hi' :
  x = y -> lo = lo' -> hi = hi' -> clamp x lo hi = clamp y lo' hi'.
Proof. now intros -> -> ->. Qed.

Lemma heuristic_detection_steps text f rep voc st pp :
  extract_writing_features U text = Ok f ->
  analyze_repetition U text = Ok rep ->
  analyze_vocabulary_diversity U text = Ok voc ->
  analyze_sentence_structure U text = Ok st ->
  calculate_perplexity U text = Ok pp ->
  heuristic_detection U text = Ok (heuristic_result f rep voc st pp).
Proof.
  intros Hf Hrep Hvoc Hst Hpp. unfold heuristic_detection.
  rewrite Hf, Hrep, Hvoc, Hst, Hpp. cbn [bind].
  rewrite py_div_ok by lra. cbn [bind].
  rewrite calculate_confidence_features. cbn [bind].
  unfold heuristic_result. do 2 f_equal.
  rewrite clamp_py. unfold fusion. apply clamp_ext; lra.
Qed.

Lemma heuristic_detection_returns text :
  fits_in_memory (lower U text) ->
  exists f rep voc st pp,
    extract_writing_features U text = Ok f /\
    word_count f = len (findall_words U (lower U text)) /\
    analyze_repetition U text = Ok rep /\
    analyze_vocabulary_diversity U text = Ok voc /\
    analyze_sentence_structure U text = Ok st /\
    calculate_perplexity U text = Ok pp /\
    heuristic_detection U text = Ok (heuristic_result f rep voc st pp).
Proof.
  intros Hfit.
  destruct (extract_writing_features_returns text) as (f & Hf & Hwc & _).
  destruct (analyze_repetition_returns text) as (rep & Hrep).
  destruct (analyze_vocabulary_diversity_returns text) as (voc & Hvoc).
  destruct (analyze_sentence_structure_returns text) as (st & Hst).
  destruct (calculate_perplexity_returns text Hfit) as (pp & Hpp).
  exists f, rep, voc, st, pp.
  repeat (split; [assumption|]).
  now apply heuristic_detection_steps.
Qed.

(** The ML tier either completes its [try] block or hands the text to the
    heuristic tier. *)
Lemma ml_detection_cases lib text :
  (exists r, ml_attempt U lib text = Ok r /\ ml_detection U lib text = Ok r) \/
  ((exists e, ml_attempt U lib text = Raise e) /\
   ml_detection U lib text = heuristic_detection U text).
Proof.
  unfold ml_detection. destruct (ml_attempt U lib text) as [r|e]; cbn.
  - left. eauto.
  - right. eauto.
Qed.

Lemma ml_attempt_payload lib text r :
  ml_attempt U lib text = Ok r ->
  exists f pp,
    extract_writing_features U text = Ok f /\
    calculate_perplexity U text = Ok pp /\
    analysis r = [("method", VStr "ml_model");
                  ("model", VStr "transformers");
                  ("features", VFeatures f);
                  ("perplexity", VFloat pp)].
Proof.
  unfold ml_attempt. intros H.
  destruct (forward lib text) as [t|]; cbn [bind] in H; [|discriminate].
  destruct (calculate_ai_probability U text t); cbn [bind] in H; [|discriminate].
  destruct (calculate_confidence text _); cbn [bind] in H; [|discriminate].
  destruct (extract_writing_features U text) as [f|]; cbn [bind] in H;
    [|discriminate].
  destruct (calculate_perplexity U text) as [pp|]; cbn [bind] in H;
    [|discriminate].
  injection H as <-. exists f, pp. repeat split.
Qed.

Lemma detect_heuristic_path self text :
  heuristic_path self -> detect U self text = heuristic_detection U text.
Proof.
  unfold heuristic_path, detect. intros [-> | ->].
  - reflexivity.
  - now destruct (transformers_available self).
Qed.

Lemma text_detect_returns self text :
  fits_in_memory (lower U text) -> returns (detect U self text).
Proof.
  intros Hfit.
  assert (Hh : returns (heuristic_detection U text)).
  { destruct (heuristic_detection_returns text Hfit)
      as (f & rep & voc & st & pp & _ & _ & _ & _ & _ & _ & H).
    rewrite H. apply returns_ok. }
  unfold detect.
  destruct (transformers_available self); [|exact Hh].
  destruct (model self) as [lib|]; [|exact Hh].
  unfold ml_detection. apply try_except_returns. intros _. exact Hh.
Qed.

Lemma confidence_step_mono m n :
  m <= n -> (confidence_step m <= confidence_step n)%R.
Proof.
  intros H. unfold confidence_step.
  repeat match goal with
         | |- context [?a <? ?b] => destruct (Z.ltb_spec a b)
         end; try lra; lia.
Qed.

Lemma calculate_ai_probability_returns text t :
  exists a, calculate_ai_probability U text t = Ok a.
Proof.
  unfold calculate_ai_probability.
  match goal with |- context [try_except ?b _] => destruct b end; cbn; eauto.
Qed.

(** When the probabilities object has no [get], the ML tier always hands
    over to the heuristic tier. *)
Lemma ml_detection_without_get lib text :
  (forall t, exists e, tensor_get_word_count lib t = Raise e) ->
  ml_detection U lib text = heuristic_detection U text.
Proof.
  intros Hget. unfold ml_detection, ml_attempt.
  destruct (forward lib text) as [t|]; cbn [bind try_except]; [|reflexivity].
  destruct (calculate_ai_probability_returns text t) as [a ->].
  cbn [bind]. unfold calculate_confidence. cbn [get_word_count].
  destruct (Hget t) as [e ->]. reflexivity.
Qed.

(** C3.  On the heuristic tier the four sub-analyzers return, and the
    probability [detect] returns is the weighted sum 0.3, 0.2, 0.25, 0.25
    of their scores clamped to [0, 1]; it lies between 0 and 1. *)
Theorem C3_heuristic_fusion_formula text :
  text <> [] ->
  fits_in_memory (lower U text) ->
  exists r rep voc st pp,
    analyze_repetition U text = Ok rep /\
    analyze_vocabulary_diversity U text = Ok voc /\
    analyze_sentence_structure U text = Ok st /\
    calculate_perplexity U text = Ok pp /\
    heuristic_detection U text = Ok r /\
    (forall self, heuristic_path self -> detect U self text = Ok r) /\
    ai_probability r =
      clamp (0.3 * rep + 0.2 * voc + 0.25 * st + 0.25 * pp) 0 1 /\
    (0 <= ai_probability r <= 1)%R.
Proof.
  intros _ Hfit.
  destruct (heuristic_detection_returns text Hfit)
    as (f & rep & voc & st & pp & _ & _ & Hrep & Hvoc & Hst & Hpp & H).
  exists (heuristic_result f rep voc st pp), rep, voc, st, pp.
  repeat (split; [assumption|]).
  split; [intros self Hself; now rewrite detect_heuristic_path|].
  split; [reflexivity|].
  apply clamp_bounds. lra.
Qed.

(** C7.  The confidence of the text detector is the step function of the
    word count (0.3 below 10 words, 0.6 below 50, 0.8 below 200, 0.9 from
    200 on), and a text with no more words than another never gets the
    greater confidence.  This holds for the heuristic tier, for every
    result [detect] tags "heuristic", and for every result of a detector
    whose probabilities object has no [get], as a tensor has none. *)
Theorem C7_confidence_is_step_of_word_count t1 t2 :
  fits_in_memory (lower U t1) ->
  fits_in_memory (lower U t2) ->
  let n1 := len (findall_words U (lower U t1)) in
  let n2 := len (findall_words U (lower U t2)) in
  exists r1 r2,
    heuristic_detection U t1 = Ok r1 /\
    heuristic_detection U t2 = Ok r2 /\
    confidence r1 = confidence_step n1 /\
    confidence r2 = confidence_step n2 /\
    (n1 < 10 -> confidence r1 = 0.3%R) /\
    (10 <= n1 < 50 -> confidence r1 = 0.6%R) /\
    (50 <= n1 < 200 -> confidence r1 = 0.8%R) /\
    (200 <= n1 -> confidence r1 = 0.9%R) /\
    (n1 <= n2 -> (confidence r1 <= confidence r2)%R) /\
    (forall self r,
        detect U self t1 = Ok r ->
        method r = Some (VStr "heuristic") ->
        confidence r = confidence_step n1) /\
    (forall self r,
        (forall lib t, model self = Some lib ->
                       exists e, tensor_get_word_count lib t = Raise e) ->
        detect U self t1 = Ok r ->
        confidence r = confidence_step n1).
Proof.
  intros Hfit1 Hfit2 n1 n2.
  destruct (heuristic_detection_returns t1 Hfit1)
    as (f1 & rep1 & voc1 & st1 & pp1 & _ & Hwc1 & _ & _ & _ & _ & H1).
  destruct (heuristic_detection_returns t2 Hfit2)
    as (f2 & rep2 & voc2 & st2 & pp2 & _ & Hwc2 & _ & _ & _ & _ & H2).
  exists (heuristic_result f1 rep1 voc1 st1 pp1),
         (heuristic_result f2 rep2 voc2 st2 pp2).
  cbn [confidence heuristic_result]. rewrite Hwc1, Hwc2. fold n1 n2.
  split; [exact H1|]. split; [exact H2|].
  split; [reflexivity|]. split; [reflexivity|].
  unfold confidence_step at 1 2 3 4.
  split; [intros ?|]. { destruct (Z.ltb_spec n1 10); [reflexivity | lia]. }
  split; [intros ?|].
  { destruct (Z.ltb_spec n1 10); [lia|].
    destruct (Z.ltb_spec n1 50); [reflexivity | lia]. }
  split; [intros ?|].
  { destruct (Z.ltb_spec n1 10); [lia|]. destruct (Z.ltb_spec n1 50); [lia|].
    destruct (Z.ltb_spec n1 200); [reflexivity | lia]. }
  split; [intros ?|].
  { destruct (Z.ltb_spec n1 10); [lia|]. destruct (Z.ltb_spec n1 50); [lia|].
    destruct (Z.ltb_spec n1 200); [lia | reflexivity]. }
  split; [apply confidence_step_mono|].
  split; [|intros self r Hget Hr;
           assert (Hh : detect U self t1 = heuristic_detection U t1);
           [unfold detect; destruct (transformers_available self);
              [|reflexivity];
            destruct (model self) as [lib|]; [|reflexivity];
            apply ml_detection_without_get; intros t; now apply Hget
           |rewrite Hh, H1 in Hr; injection Hr as <-; cbn; now rewrite Hwc1]].
  intros self r Hr Hm.
  assert (Hcases : detect U self t1 = heuristic_detection U t1 \/
                   exists lib, ml_attempt U lib t1 = Ok r).
  { unfold detect in *. destruct (transformers_available self); [|now left].
    destruct (model self) as [lib|]; [|now left].
    destruct (ml_detection_cases lib t1) as [(r' & Ha & Hd) | (_ & Hd)].
    - right. exists lib. congruence.
    - now left. }
  destruct Hcases as [Hh | (lib & Ha)].
  - rewrite Hh, H1 in Hr. injection Hr as <-. cbn. now rewrite Hwc1.
  - apply ml_attempt_payload in Ha. destruct Ha as (f & pp & _ & _ & Ha).
    unfold method in Hm. rewrite Ha in Hm. discriminate.
Qed.

(** C5.  The ML tier never returns the payload it builds.  [_ml_detection]
    hands the probabilities tensor, not the features, to
    [_calculate_confidence]; the lookup of [get] on a tensor raises inside
    the [try] block, and the [except] clause answers with the heuristic
    tier.  For a detector with a loaded model, every text therefore gets a
    payload tagged "heuristic": none is tagged "ml_model", so none reports
    what is asked of an ML-tier payload. *)
Theorem C5_ml_tier_always_falls_back lib text :
  (forall t, exists e, tensor_get_word_count lib t = Raise e) ->
  fits_in_memory (lower U text) ->
  (exists e, ml_attempt U lib text = Raise e) /\
  exists r,
    detect U (ml_detector lib) text = Ok r /\
    heuristic_detection U text = Ok r /\
    method r = Some (VStr "heuristic") /\
    method r <> Some (VStr "ml_model") /\
    ~ reports_ml_signals r.
Proof.
  intros Hget Hfit. split.
  - unfold ml_attempt.
    destruct (forward lib text) as [t|e]; cbn [bind]; [|now exists e].
    destruct (calculate_ai_probability_returns text t) as [a ->].
    cbn [bind]. unfold calculate_confidence. cbn [get_word_count].
    destruct (Hget t) as [e ->]. now exists e.
  - destruct (heuristic_detection_returns text Hfit)
      as (f & rep & voc & st & pp & _ & _ & _ & _ & _ & _ & H).
    exists (heuristic_result f rep voc st pp).
    split.
    { change (ml_detection U lib text = Ok (heuristic_result f rep voc st pp)).
      now rewrite ml_detection_without_get. }
    split; [exact H|]. split; [reflexivity|].
    split; [discriminate|]. intros (Hm & _). discriminate.
Qed.



End Totality.

(** *** Closed instances *)





(** ** Repetition: bigrams and trigrams as consecutive words *)







Lemma nodup_length_le (l : list str) :
  (List.length (nodup str_eq_dec l) <= List.length l)%nat.
Proof.
  induction l as [|a l IH]; simpl; [lia|].
  destruct (in_dec str_eq_dec a l); simpl; lia.
Qed.


Section Repetition.

Variable U : UnicodeDB.





End Repetition.



Lemma C3_heuristic_fusion_formula_witness :
  exists r rep voc st pp,
    analyze_repetition ascii_only repetitive_text = Ok rep /\
    analyze_vocabulary_diversity ascii_only repetitive_text = Ok voc /\
    analyze_sentence_structure ascii_only repetitive_text = Ok st /\
    calculate_perplexity ascii_only repetitive_text = Ok pp /\
    heuristic_detection ascii_only repetitive_text = Ok r /\
    (forall self, heuristic_path self ->
                  detect ascii_only self repetitive_text = Ok r) /\
    ai_probability r =
      clamp (0.3 * rep + 0.2 * voc + 0.25 * st + 0.25 * pp) 0 1 /\
    (0 <= ai_probability r <= 1)%R.
Proof.
  apply C3_heuristic_fusion_formula.
  - discriminate.
  - vm_compute. reflexivity.
Defined.

Lemma C7_confidence_is_step_of_word_count_witness :
  exists r1 r2,
    heuristic_detection ascii_only hi = Ok r1 /\
    heuristic_detection ascii_only repetitive_text = Ok r2 /\
    confidence r1 = confidence_step 1 /\
    confidence r2 = confidence_step 50.
Proof.
  destruct (@C7_confidence_is_step_of_word_count ascii_only hi repetitive_text)
    as (r1 & r2 & H1 & H2 & Hc1 & Hc2 & _).
  - vm_compute. reflexivity.
  - vm_compute. reflexivity.
  - exists r1, r2. repeat split; assumption.
Defined.

Lemma C5_ml_tier_always_falls_back_witness :
  (exists e, ml_attempt ascii_only tensor_model hi = Raise e) /\
  exists r,
    detect ascii_only (ml_detector tensor_model) hi = Ok r /\
    heuristic_detection ascii_only hi = Ok r /\
    method r = Some (VStr "heuristic") /\
    method r <> Some (VStr "ml_model") /\
    ~ reports_ml_signals r.
Proof.
  apply C5_ml_tier_always_falls_back.
  - intros t. now exists AttributeError.
  - vm_compute. reflexivity.
Defined.

End TextFacts.

(** ** Both detectors *)

(** C2.  For a non-empty text and a non-empty byte sequence, each [detect]
    returns a result dictionary: no exception escapes, whatever the state of
    the detector and whatever the libraries behind it do. *)
Theorem C2_detect_never_raises
    (U : UnicodeDB) (self : TextAIDetector.Detector) (text : str)
    (cv : ImageAIDetector.Toolkit) (opencv_available : bool) (data : bytes) :
  text <> [] ->
  fits_in_memory (lower U text) ->
  data <> [] ->
  (exists r, TextAIDetector.detect U self text = Ok r) /\
  (exists r, ImageAIDetector.detect cv opencv_available data = Ok r).
Proof.
  intros _ Hfit _. split.
  - now apply TextFacts.text_detect_returns.
  - apply ImageFacts.image_detect_returns.
Qed.

Lemma C2_detect_never_raises_witness :
  (exists r,
      TextAIDetector.detect ascii_only (ml_detector tensor_model)
        repetitive_text = Ok r) /\
  (exists r,
      ImageAIDetector.detect ImageAIDetector.no_codec true garbage = Ok r).
Proof.
  apply C2_detect_never_raises.
  - discriminate.
  - vm_compute. reflexivity.
  - discriminate.
Defined.

(** * Further properties of the code *)

(** ** [str] and [re] operations *)

Module StringFacts.

Section Runs.

Variable p : N -> bool.

Lemma runs_from_concat cur s :
  List.concat (runs_from p cur s) = rev cur ++ filter p s.
Proof.
  revert cur. induction s as [|c s IH]; intros cur; simpl.
  - destruct cur; simpl; now rewrite ?app_nil_r.
  - destruct (p c).
    + rewrite IH. simpl. now rewrite <- app_assoc.
    + destruct cur; [apply IH|].
      change (List.concat (rev (n :: cur) :: runs_from p [] s))
        with (rev (n :: cur) ++ List.concat (runs_from p [] s)).
      now rewrite IH.
Qed.

Lemma runs_from_nonempty cur s :
  Forall (fun w => w <> []) (runs_from p cur s).
Proof.
  assert (Hrev : forall (c : N) l, rev (c :: l) <> []).
  { intros c l H. apply (f_equal (@List.length N)) in H.
    rewrite length_rev in H. discriminate. }
  revert cur. induction s as [|c s IH]; intros cur; simpl.
  - destruct cur; constructor; [apply Hrev | constructor].
  - destruct (p c); [apply IH|].
    destruct cur; [apply IH|]. constructor; [apply Hrev | apply IH].
Qed.

Lemma runs_from_all cur s :
  forallb p cur = true ->
  Forall (fun w => forallb p w = true) (runs_from p cur s).
Proof.
  revert cur. induction s as [|c s IH]; intros cur Hcur; simpl.
  - destruct cur; constructor; [|constructor].
    rewrite forallb_forall in *. intros x Hx. apply Hcur. now apply in_rev.
  - destruct (p c) eqn:Hc.
    + apply IH. simpl. now rewrite Hc.
    + destruct cur; [now apply IH|].
      constructor; [|now apply IH].
      rewrite forallb_forall in *. intros x Hx. apply Hcur. now apply in_rev.
Qed.

(** X1.  The runs that [re.findall(r'\b\w+\b', s)] and [s.split()] return
    are non-empty, consist of characters of the class only, and put end to
    end they are the characters of the class in [s], in order: nothing is
    lost, added or reordered. *)
Theorem runs_partition_the_class (s : str) :
  Forall (fun w => w <> [] /\ forallb p w = true) (runs p s) /\
  List.concat (runs p s) = filter p s.
Proof.
  split.
  - apply Forall_and; [apply runs_from_nonempty | now apply runs_from_all].
  - unfold runs. now rewrite runs_from_concat.
Qed.

End Runs.

Lemma re_split_from_concat cur in_sep s :
  (in_sep = true -> cur = []) ->
  List.concat (re_split_from cur in_sep s) =
  rev cur ++ filter (fun c => negb (is_terminator c)) s.
Proof.
  revert cur in_sep. induction s as [|c s IH]; intros cur in_sep Hinv; simpl.
  - now rewrite !app_nil_r.
  - destruct (is_terminator c); simpl.
    + destruct in_sep.
      * rewrite (Hinv eq_refl). now apply IH.
      * simpl. now rewrite IH.
    + rewrite IH by discriminate. simpl. now rewrite <- app_assoc.
Qed.

Lemma re_split_from_pieces cur in_sep s :
  forallb (fun c => negb (is_terminator c)) cur = true ->
  Forall (fun w => forallb (fun c => negb (is_terminator c)) w = true)
         (re_split_from cur in_sep s).
Proof.
  assert (Hrev : forall l,
             forallb (fun c => negb (is_terminator c)) l = true ->
             forallb (fun c => negb (is_terminator c)) (rev l) = true).
  { intros l H. rewrite forallb_forall in *. intros x Hx. apply H.
    now apply in_rev. }
  revert cur in_sep. induction s as [|c s IH]; intros cur in_sep Hcur; simpl.
  - constructor; [now apply Hrev | constructor].
  - destruct (is_terminator c) eqn:Hc.
    + destruct in_sep; [now apply IH|].
      constructor; [now apply Hrev | now apply IH].
    + apply IH. simpl. now rewrite Hc.
Qed.

Lemma re_split_from_count cur curT in_sep s :
  (in_sep = true <-> curT <> []) ->
  (List.length (re_split_from cur in_sep s) + (if in_sep then 1 else 0) =
   S (List.length (runs_from is_terminator curT s)))%nat.
Proof.
  revert cur curT in_sep.
  induction s as [|c s IH]; intros cur curT in_sep Hinv; simpl.
  - destruct in_sep, curT; simpl; try reflexivity.
    + destruct Hinv as [H _]. now specialize (H eq_refl).
    + destruct Hinv as [_ H]. discriminate H. discriminate.
  - destruct (is_terminator c).
    + destruct in_sep.
      * apply (IH [] (c :: curT) true). split; [discriminate | reflexivity].
      * simpl. rewrite <- (IH [] (c :: curT) true); [lia|].
        split; [discriminate | reflexivity].
    + destruct in_sep.
      * destruct curT as [|x curT].
        { destruct Hinv as [H _]. now specialize (H eq_refl). }
        simpl. rewrite <- (IH (c :: cur) [] false); [lia|].
        split; [discriminate | intros H; now elim H].
      * destruct curT as [|x curT].
        { rewrite <- (IH (c :: cur) [] false); [lia|].
          split; [discriminate | intros H; now elim H]. }
        destruct Hinv as [_ H]. discriminate H. discriminate.
Qed.

(** X2.  [re.split(r'[.!?]+', s)] always returns at least one piece, one
    more than there are runs of terminators in [s]; no piece holds a
    terminator, and put end to end the pieces are [s] without its
    terminators. *)
Theorem re_split_pieces (s : str) :
  List.length (re_split s) = S (List.length (runs is_terminator s)) /\
  Forall (fun w => forallb (fun c => negb (is_terminator c)) w = true)
         (re_split s) /\
  List.concat (re_split s) = filter (fun c => negb (is_terminator c)) s.
Proof.
  unfold re_split, runs. repeat split.
  - pose proof (@re_split_from_count [] [] false s) as H. simpl in H.
    rewrite <- H; [lia|]. split; [discriminate | intros E; now elim E].
  - now apply re_split_from_pieces.
  - rewrite re_split_from_concat by discriminate. reflexivity.
Qed.

Lemma dropwhile_suffix q s : exists pre, s = pre ++ dropwhile q s.
Proof.
  induction s as [|c s [pre IH]]; simpl.
  - now exists [].
  - destruct (q c); [|now exists []].
    exists (c :: pre). simpl. now f_equal.
Qed.

Lemma dropwhile_head q s c t : dropwhile q s = c :: t -> q c = false.
Proof.
  induction s as [|x s IH]; simpl; [discriminate|].
  destruct (q x) eqn:Hx; [exact IH|].
  intros H. injection H as <- _. exact Hx.
Qed.

Lemma dropwhile_fixed q s :
  match s with [] => True | c :: _ => q c = false end -> dropwhile q s = s.
Proof. destruct s as [|c s]; simpl; [reflexivity|]. now intros ->. Qed.

Lemma dropwhile_nil q s : dropwhile q s = [] <-> forallb q s = true.
Proof.
  induction s as [|c s IH]; simpl; [tauto|].
  destruct (q c); simpl; [exact IH|]. split; discriminate.
Qed.

Section Strip.

Variable U : UnicodeDB.

Lemma strip_ends s :
  match strip U s with [] => True | c :: _ => is_space U c = false end /\
  match rev (strip U s) with [] => True | c :: _ => is_space U c = false end.
Proof.
  unfold strip. rewrite rev_involutive.
  set (a := dropwhile (is_space U) s).
  set (b := dropwhile (is_space U) (rev a)).
  split.
  - destruct (rev b) as [|c t] eqn:Hb; [exact I|].
    destruct (dropwhile_suffix (is_space U) (rev a)) as [pre Hpre].
    fold b in Hpre. apply (f_equal (@rev N)) in Hpre.
    rewrite rev_involutive, rev_app_distr, Hb in Hpre.
    apply (dropwhile_head (is_space U) s (t := t ++ rev pre)).
    exact Hpre.
  - destruct b as [|c t] eqn:Hb; [exact I|].
    now apply (dropwhile_head (is_space U) (rev a) (t := t)).
Qed.

Lemma strip_nil_iff s : strip U s = [] <-> forallb (is_space U) s = true.
Proof.
  unfold strip. split.
  - intros H. apply (f_equal (@rev N)) in H. rewrite rev_involutive in H.
    simpl in H. apply dropwhile_nil in H.
    rewrite forallb_forall in H.
    destruct (dropwhile (is_space U) s) as [|c t] eqn:Ha.
    + now apply dropwhile_nil.
    + pose proof (dropwhile_head _ _ Ha) as Hc.
      rewrite (H c) in Hc; [discriminate|].
      apply -> in_rev. now left.
  - intros H. apply dropwhile_nil in H. now rewrite H.
Qed.

(** X3.  [s.strip()] neither starts nor ends with a blank, is empty exactly
    when [s] holds blanks only, and stripping twice changes nothing more. *)
Theorem strip_properties (s : str) :
  match strip U s with [] => True | c :: _ => is_space U c = false end /\
  match rev (strip U s) with [] => True | c :: _ => is_space U c = false end /\
  (strip U s = [] <-> forallb (is_space U) s = true) /\
  strip U (strip U s) = strip U s.
Proof.
  destruct (strip_ends s) as [Hhd Hlast].
  split; [exact Hhd|]. split; [exact Hlast|]. split; [apply strip_nil_iff|].
  unfold strip at 1.
  rewrite (dropwhile_fixed (is_space U) (strip U s)) by exact Hhd.
  rewrite (dropwhile_fixed (is_space U) (rev (strip U s))) by exact Hlast.
  apply rev_involutive.
Qed.

Lemma between_spec lo hi c :
  between lo hi c = true <-> (lo <= c <= hi)%N.
Proof. unfold between. now rewrite andb_true_iff, !N.leb_le. Qed.

Lemma ascii_lower_idempotent c : ascii_lower (ascii_lower c) = ascii_lower c.
Proof.
  unfold ascii_lower. destruct (between 65 90 c) eqn:E; [|now rewrite E].
  assert (H : between 65 90 (c + 32) = false).
  { apply not_true_iff_false. rewrite between_spec.
    apply between_spec in E. lia. }
  now rewrite H.
Qed.

Lemma ascii_lower_is_ascii c : is_ascii (ascii_lower c) = is_ascii c.
Proof.
  unfold ascii_lower. destruct (between 65 90 c) eqn:E; [|reflexivity].
  apply between_spec in E. unfold is_ascii.
  destruct (N.ltb_spec (c + 32) 128); destruct (N.ltb_spec c 128);
    try reflexivity; lia.
Qed.

Lemma ascii_lower_word c : ascii_word (ascii_lower c) = ascii_word c.
Proof.
  unfold ascii_lower. destruct (between 65 90 c) eqn:E; [|reflexivity].
  apply between_spec in E. unfold ascii_word.
  apply eq_trans with true; [|symmetry];
    rewrite !orb_true_iff, !between_spec; [right; lia | left; left; right; lia].
Qed.

Lemma runs_from_map (q : N -> bool) (f : N -> N) cur s :
  runs_from q (map f cur) (map f s) =
  map (map f) (runs_from (fun c => q (f c)) cur s).
Proof.
  revert cur. induction s as [|c s IH]; intros cur; cbn [map runs_from].
  - destruct cur; [reflexivity|]. cbn [map]. now rewrite map_rev.
  - destruct (q (f c)).
    + apply (IH (c :: cur)).
    + destruct cur; cbn [map].
      * apply (IH []).
      * rewrite map_rev. f_equal. apply (IH []).
Qed.

Lemma runs_from_ext (q q' : N -> bool) cur s :
  (forall c, In c s -> q c = q' c) ->
  runs_from q cur s = runs_from q' cur s.
Proof.
  revert cur. induction s as [|c s IH]; intros cur H; simpl; [reflexivity|].
  rewrite <- (H c) by now left.
  assert (IH' : forall cur', runs_from q cur' s = runs_from q' cur' s)
    by (intros; apply IH; intros x Hx; apply H; now right).
  destruct (q c); [apply IH'|]. destruct cur; [apply IH'|]. now rewrite IH'.
Qed.

(** X4.  On ASCII text, lower-casing does not move word boundaries: the
    words of [s.lower()] are the words of [s], lower-cased one by one.  The
    word count and the number of bigrams are therefore insensitive to
    case, and lower-casing twice is lower-casing once. *)
Theorem lower_preserves_words (s : str) :
  forallb is_ascii s = true ->
  findall_words U (lower U s) = map (map ascii_lower) (findall_words U s) /\
  len (findall_words U (lower U s)) = len (findall_words U s) /\
  lower U (lower U s) = lower U s.
Proof.
  intros Hs.
  assert (Hl : lower U s = map ascii_lower s) by (unfold lower; now rewrite Hs).
  assert (Hw : findall_words U (lower U s) =
               map (map ascii_lower) (findall_words U s)).
  { rewrite Hl. unfold findall_words, runs.
    change (runs_from (is_word U) [] (map ascii_lower s))
      with (runs_from (is_word U) (map ascii_lower []) (map ascii_lower s)).
    rewrite (runs_from_map (is_word U) ascii_lower [] s).
    f_equal. apply runs_from_ext. intros c Hc.
    rewrite forallb_forall in Hs. specialize (Hs c Hc).
    unfold is_word. rewrite ascii_lower_is_ascii, Hs.
    apply ascii_lower_word. }
  split; [exact Hw|]. split.
  - rewrite Hw. unfold len. now rewrite length_map.
  - rewrite Hl. unfold lower.
    assert (Ha : forallb is_ascii (map ascii_lower s) = true).
    { rewrite forallb_forall in *. intros c Hc.
      apply in_map_iff in Hc. destruct Hc as (x & <- & Hx).
      rewrite ascii_lower_is_ascii. now apply Hs. }
    rewrite Ha, map_map. apply map_ext. intros c.
    apply ascii_lower_idempotent.
Qed.

End Strip.

End StringFacts.

(** ** The text detector: features and signal scores *)

Module TextExtras.
Import TextAIDetector TextFacts.


Lemma nodup_nonempty (l : list str) :
  l <> [] -> (1 <= List.length (nodup str_eq_dec l))%nat.
Proof.
  destruct l as [|a l]; [congruence|]. intros _.
  assert (Hin : In a (nodup str_eq_dec (a :: l)))
    by (apply nodup_In; now left).
  destruct (nodup str_eq_dec (a :: l)); [destruct Hin | simpl; lia].
Qed.

Lemma sum_len_ge (l : list str) :
  Forall (fun w => w <> []) l -> len l <= fold_right Z.add 0 (map len l).
Proof.
  unfold len. induction 1 as [|w l Hw _ IH]; simpl; [lia|].
  destruct w; [congruence|]. simpl List.length in *. lia.
Qed.

Section Features.

Variable U : UnicodeDB.

(** X5.  The writing features are always produced, also for a text without
    any word, and they are consistent: the number of distinct words is
    between 0 and the word count and is 0 only without words, the
    vocabulary diversity is their quotient and lies in [0, 1], and the
    average word length is at least 1 as soon as there is a word.  A text
    without words has all these features equal to 0. *)
Theorem writing_features_invariants (text : str) :
  exists f,
    extract_writing_features U text = Ok f /\
    word_count f = len (findall_words U (lower U text)) /\
    sentence_count f = len (nonblank_sentences U text) /\
    0 <= unique_words f <= word_count f /\
    (unique_words f = 0 <-> word_count f = 0) /\
    (0 <= vocabulary_diversity f <= 1)%R /\
    (1 <= word_count f ->
       vocabulary_diversity f =
         (IZR (unique_words f) / IZR (word_count f))%R /\
       (1 <= avg_word_length f)%R) /\
    (word_count f = 0 ->
       vocabulary_diversity f = 0%R /\ avg_word_length f = 0%R /\
       avg_sentence_length f = 0%R).
Proof.
  unfold extract_writing_features.
  repeat (rewrite py_div_IZR by lia; cbn [bind]).
  set (words := findall_words U (lower U text)).
  eexists. split; [reflexivity|].
  cbn [word_count sentence_count unique_words vocabulary_diversity
       avg_word_length avg_sentence_length].
  pose proof (nodup_length_le words) as Hle.
  assert (Hu : 0 <= len (set words) <= len words) by (unfold set, len; lia).
  assert (Hz : len (set words) = 0 <-> len words = 0).
  { unfold set, len. destruct words as [|w ws]; [simpl; tauto|].
    pose proof (@nodup_nonempty (w :: ws) ltac:(discriminate)).
    simpl List.length in *. lia. }
  split; [reflexivity|]. split; [reflexivity|].
  split; [exact Hu|]. split; [exact Hz|].
  assert (Hmax : (1 <= IZR (Z.max (len words) 1))%R) by (apply IZR_le; lia).
  split; [|split].
  - assert (H0 : (0 <= IZR (len (set words)))%R) by (apply IZR_le; lia).
    assert (H1 : (IZR (len (set words)) <= IZR (Z.max (len words) 1))%R)
      by (apply IZR_le; lia).
    split.
    + apply Rmult_le_reg_r with (r := IZR (Z.max (len words) 1)); [lra|].
      unfold Rdiv. rewrite Rmult_assoc, Rinv_l by lra. lra.
    + apply Rmult_le_reg_r with (r := IZR (Z.max (len words) 1)); [lra|].
      unfold Rdiv. rewrite Rmult_assoc, Rinv_l by lra. lra.
  - intros Hw. rewrite Z.max_l by lia. split; [reflexivity|].
    assert (Hs : len words <= fold_right Z.add 0 (map len words)).
    { apply sum_len_ge. apply StringFacts.runs_from_nonempty. }
    apply IZR_le in Hs.
    assert (Hp : (1 <= IZR (len words))%R) by (apply IZR_le; lia).
    apply Rmult_le_reg_r with (r := IZR (len words)); [lra|].
    unfold Rdiv. rewrite Rmult_assoc, Rinv_l by lra. lra.
  - intros Hw. apply Hz in Hw as Hu0. rewrite Hu0.
    assert (Hnil : words = []).
    { destruct words; [reflexivity|]. unfold len in Hw. simpl in Hw. lia. }
    rewrite Hnil. simpl. unfold Rdiv. rewrite !Rmult_0_l. tauto.
Qed.

End Features.

(** *** The bigram table and the perplexity *)

Lemma freq_index_set_other k k' v d :
  k <> k' -> freq_index k (freq_set k' v d) = freq_index k d.
Proof.
  intros Hne. induction d as [|[k0 v0] d IH]; simpl.
  - destruct (str_eq_dec k k'); [contradiction | reflexivity].
  - destruct (str_eq_dec k' k0) as [->|Hne']; simpl.
    + destruct (str_eq_dec k k0); [contradiction | reflexivity].
    + destruct (str_eq_dec k k0); [reflexivity | exact IH].
Qed.

Lemma fold_count_absent l : forall d k,
  ~ In k l -> freq_index k (fold_left count_bigram l d) = freq_index k d.
Proof.
  induction l as [|a l IH]; intros d k Hnin; simpl; [reflexivity|].
  rewrite IH by (intros H; apply Hnin; now right).
  unfold count_bigram. apply freq_index_set_other.
  intros ->. apply Hnin. now left.
Qed.

(** X6.  After the counting loop of [_calculate_perplexity] the table maps
    every bigram of the list to its number of occurrences, which is at
    least 1 and at most the number of bigrams; indexing it with any other
    key raises [KeyError], and [get(key, 0)] gives the number of occurrences
    for every key. *)
Theorem bigram_table_counts_occurrences (bigrams : list str) (k : str) :
  (In k bigrams ->
     freq_index k (count_bigrams bigrams) =
       Ok (Z.of_nat (count_occ str_eq_dec bigrams k)) /\
     1 <= Z.of_nat (count_occ str_eq_dec bigrams k) <= len bigrams) /\
  (~ In k bigrams -> freq_index k (count_bigrams bigrams) = Raise KeyError) /\
  freq_get k (count_bigrams bigrams) 0 =
    Z.of_nat (count_occ str_eq_dec bigrams k).
Proof.
  split; [|split].
  - intros Hin. split; [now apply count_bigrams_occurrences|].
    pose proof (count_occ_bound str_eq_dec k bigrams).
    apply (count_occ_In str_eq_dec) in Hin. unfold len. lia.
  - intros Hnin. unfold count_bigrams. now rewrite fold_count_absent.
  - unfold count_bigrams. now rewrite fold_count_get.
Qed.

Lemma sum_log_probs_exact d n (c : str -> Z) todo : forall acc,
  1 <= n ->
  (forall b, In b todo -> freq_index b d = Ok (c b) /\ 1 <= c b) ->
  sum_log_probs d n todo acc =
  Ok (acc + sum_R (map (fun b => ln (IZR (c b) / IZR n)) todo))%R.
Proof.
  induction todo as [|b todo IH]; intros acc Hn Hall.
  - simpl. f_equal. unfold sum_R. simpl. lra.
  - destruct (Hall b (or_introl eq_refl)) as (Hc & Hc1).
    assert (Hn' : (0 < IZR n)%R) by (apply IZR_lt; lia).
    assert (Hpos : (0 < IZR (c b) / IZR n)%R).
    { apply Rdiv_lt_0_compat; [apply IZR_lt; lia | exact Hn']. }
    cbn [sum_log_probs]. rewrite Hc. cbn [bind].
    rewrite py_div_IZR by lia. cbn [bind].
    destruct (Rlt_dec 0 (IZR (c b) / IZR n)) as [_|Hn0]; [|contradiction].
    unfold math_log.
    destruct (Rlt_dec 0 (IZR (c b) / IZR n)) as [_|Hn0]; [|contradiction].
    cbn [bind]. rewrite IH; [|exact Hn|intros b' Hb'; apply Hall; now right].
    f_equal. unfold sum_R. simpl. lra.
Qed.

Lemma sum_R_bounds {A : Type} (g : A -> R) (lo hi : R) (l : list A) :
  (forall x, In x l -> lo <= g x <= hi)%R ->
  (INR (List.length l) * lo <= sum_R (map g l) <= INR (List.length l) * hi)%R.
Proof.
  induction l as [|x l IH]; intros H.
  - unfold sum_R. simpl. lra.
  - specialize (IH (fun y Hy => H y (or_intror Hy))).
    specialize (H x (or_introl eq_refl)).
    change (List.length (x :: l)) with (S (List.length l)). rewrite S_INR.
    unfold sum_R in *. simpl. lra.
Qed.

Lemma ln_ratio_nonpos c n :
  1 <= c <= n -> (ln (IZR c / IZR n) <= 0)%R.
Proof.
  intros H.
  assert (Hn : (0 < IZR n)%R) by (apply IZR_lt; lia).
  assert (Hc : (0 < IZR c)%R) by (apply IZR_lt; lia).
  assert (Hcn : (IZR c <= IZR n)%R) by (apply IZR_le; lia).
  assert (Hpos : (0 < IZR c / IZR n)%R) by now apply Rdiv_lt_0_compat.
  assert (Hle : (IZR c / IZR n <= 1)%R).
  { apply Rmult_le_reg_r with (r := IZR n); [exact Hn|].
    unfold Rdiv. rewrite Rmult_assoc, Rinv_l by lra. lra. }
  destruct (Rle_lt_or_eq_dec _ _ Hle) as [Hlt | Heq].
  - apply ln_increasing in Hlt; [|exact Hpos]. rewrite ln_1 in Hlt. lra.
  - rewrite Heq, ln_1. lra.
Qed.

Section Perplexity.

Variable U : UnicodeDB.

Lemma bigram_counts_in_range (bigrams : list str) b :
  In b bigrams ->
  freq_index b (count_bigrams bigrams) =
    Ok (Z.of_nat (count_occ str_eq_dec bigrams b)) /\
  1 <= Z.of_nat (count_occ str_eq_dec bigrams b) <= len bigrams.
Proof.
  intros Hb. split; [now apply count_bigrams_occurrences|].
  pose proof (count_occ_bound str_eq_dec b bigrams) as Hub.
  apply (count_occ_In str_eq_dec) in Hb. unfold len. lia.
Qed.

Lemma mean_log_probability_range (bigrams : list str) :
  1 <= len bigrams ->
  (- ln (IZR (len bigrams)) <= mean_log_probability bigrams <= 0)%R.
Proof.
  intros Hn1.
  assert (Hpos : (0 < IZR (len bigrams))%R) by (apply IZR_lt; lia).
  assert (Hterm : forall b, In b bigrams ->
            (- ln (IZR (len bigrams)) <=
             ln (IZR (Z.of_nat (count_occ str_eq_dec bigrams b)) /
                 IZR (len bigrams)) <= 0)%R).
  { intros b Hb. destruct (bigram_counts_in_range bigrams b Hb) as [_ Hcb].
    split.
    - apply ln_ratio_lower_bound; lia.
    - now apply ln_ratio_nonpos. }
  pose proof (@sum_R_bounds _ _ _ _ bigrams Hterm) as Hsum.
  replace (INR (List.length bigrams)) with (IZR (len bigrams)) in Hsum
    by (unfold len; now rewrite <- INR_IZR_INZ).
  unfold mean_log_probability. set (total := sum_R _) in *. split.
  - apply Rmult_le_reg_r with (r := IZR (len bigrams)); [exact Hpos|].
    unfold Rdiv. rewrite Rmult_assoc, Rinv_l by lra. lra.
  - apply Rmult_le_reg_r with (r := IZR (len bigrams)); [exact Hpos|].
    unfold Rdiv. rewrite Rmult_assoc, Rinv_l by lra. lra.
Qed.

Lemma pseudo_perplexity_range (bigrams : list str) :
  1 <= len bigrams ->
  (1 <= pseudo_perplexity bigrams <= IZR (len bigrams))%R.
Proof.
  intros Hn1.
  assert (Hpos : (0 < IZR (len bigrams))%R) by (apply IZR_lt; lia).
  pose proof (mean_log_probability_range bigrams Hn1) as Hmean.
  unfold pseudo_perplexity. split.
  - rewrite <- exp_0.
    destruct (Req_dec_T (mean_log_probability bigrams) 0) as [->|Hne].
    + rewrite Ropp_0. lra.
    + left. apply exp_increasing. lra.
  - rewrite <- (exp_ln (IZR (len bigrams))) at 1 by exact Hpos.
    destruct (Req_dec_T (- mean_log_probability bigrams)
                        (ln (IZR (len bigrams)))) as [->|Hne].
    + lra.
    + left. apply exp_increasing. lra.
Qed.

Lemma calculate_perplexity_value (text : str) :
  fits_in_memory (lower U text) ->
  10 <= len (findall_words U (lower U text)) ->
  calculate_perplexity U text =
  Ok (py_max 0.0
        (py_min 1.0
           (1.0 - pseudo_perplexity
                    (bigrams_of (findall_words U (lower U text))) / 100))).
Proof.
  intros Hfit Hlen.
  set (words := findall_words U (lower U text)) in *.
  set (bigrams := bigrams_of words).
  assert (Hn : len bigrams = len words - 1) by (apply len_bigrams; lia).
  assert (Hn1 : 1 <= len bigrams) by lia.
  pose proof (mean_log_probability_range bigrams Hn1) as Hmean.
  unfold calculate_perplexity. fold words.
  destruct (Z.ltb_spec (len words) 10); [lia|]. cbv zeta. fold bigrams.
  rewrite (@sum_log_probs_exact _ _
             (fun b => Z.of_nat (count_occ str_eq_dec bigrams b)))
    by first [lia | intros b Hb;
                    destruct (bigram_counts_in_range bigrams b Hb) as [H1 H2];
                    split; [exact H1 | lia]].
  cbn [bind]. rewrite py_div_IZR by lia. cbn [bind].
  assert (Hmeq : ((0 + sum_R (map (fun b =>
                       ln (IZR (Z.of_nat (count_occ str_eq_dec bigrams b)) /
                           IZR (len bigrams))) bigrams)) / IZR (len bigrams) =
                  mean_log_probability bigrams)%R).
  { unfold mean_log_probability. f_equal. lra. }
  rewrite Hmeq.
  assert (Hln : (ln (IZR (len bigrams)) <= 63)%R).
  { apply ln_le_of_lt_pow2; [lia|].
    pose proof (words_len_le U (lower U text)) as Hw.
    unfold fits_in_memory in Hfit. fold words in Hw. lia. }
  unfold math_exp.
  destruct (Rlt_dec 709 (- mean_log_probability bigrams)); [lra|].
  reflexivity.
Qed.

(** X7.  For a text of at least 10 words every bigram has a positive
    probability [count(b) / n], at most 1, so the branch with the floor of
    -10 is never taken: the second loop of [_calculate_perplexity] sums the
    plain logarithms.  The score is [max(0, min(1, 1 - P/100))] with [P]
    the exponential of minus the average log-probability; [P] is at least
    1, so the score is at most 0.99. *)
Theorem perplexity_of_bigram_frequencies (text : str) :
  fits_in_memory (lower U text) ->
  10 <= len (findall_words U (lower U text)) ->
  let bigrams := bigrams_of (findall_words U (lower U text)) in
  let count := fun b => Z.of_nat (count_occ str_eq_dec bigrams b) in
  let P := pseudo_perplexity bigrams in
  (forall b, In b bigrams ->
     (0 < IZR (count b) / IZR (len bigrams) <= 1)%R) /\
  sum_log_probs (count_bigrams bigrams) (len bigrams) bigrams 0 =
    Ok (sum_R (map (fun b => ln (IZR (count b) / IZR (len bigrams)))
                   bigrams)) /\
  calculate_perplexity U text = Ok (py_max 0.0 (py_min 1.0 (1.0 - P / 100))) /\
  (1 <= P)%R /\
  (py_max 0.0 (py_min 1.0 (1.0 - P / 100)) <= 0.99)%R.
Proof.
  intros Hfit Hlen bigrams count P.
  assert (Hn1 : 1 <= len bigrams).
  { unfold bigrams. rewrite len_bigrams; lia. }
  assert (Hpos : (0 < IZR (len bigrams))%R) by (apply IZR_lt; lia).
  pose proof (pseudo_perplexity_range bigrams Hn1) as HP. fold P in HP.
  split; [|split; [|split; [|split]]].
  - intros b Hb.
    destruct (bigram_counts_in_range bigrams b Hb) as [_ Hc]. fold (count b) in Hc.
    split.
    + apply Rdiv_lt_0_compat; [apply IZR_lt; lia | exact Hpos].
    + assert (Hle : (IZR (count b) <= IZR (len bigrams))%R)
        by (apply IZR_le; lia).
      apply Rmult_le_reg_r with (r := IZR (len bigrams)); [exact Hpos|].
      unfold Rdiv. rewrite Rmult_assoc, Rinv_l by lra. lra.
  - rewrite (@sum_log_probs_exact _ _ count)
      by first [lia | intros b Hb;
                      destruct (bigram_counts_in_range bigrams b Hb) as [H1 H2];
                      split; [exact H1 | unfold count; lia]].
    f_equal. lra.
  - now apply calculate_perplexity_value.
  - apply HP.
  - unfold py_max, py_min.
    destruct (Rlt_dec (1.0 - P / 100) 1.0); destruct (Rlt_dec 0.0 _); lra.
Qed.

End Perplexity.

(** *** The four signal scores *)

Lemma div_nonneg_le_1 (a b : Z) :
  0 <= a <= b -> 1 <= b -> (0 <= IZR a / IZR b <= 1)%R.
Proof.
  intros Ha Hb.
  assert (H0 : (0 <= IZR a)%R) by (apply IZR_le; lia).
  assert (H1 : (IZR a <= IZR b)%R) by (apply IZR_le; lia).
  assert (Hp : (0 < IZR b)%R) by (apply IZR_lt; lia).
  split; apply Rmult_le_reg_r with (r := IZR b); try exact Hp;
    unfold Rdiv; rewrite Rmult_assoc, Rinv_l by lra; lra.
Qed.

Section Scores.

Variable U : UnicodeDB.

Lemma repetition_value text :
  let words := findall_words U (lower U text) in
  let k := (len (bigrams_of words) - len (set (bigrams_of words))) +
           (len (trigrams_of words) - len (set (trigrams_of words))) in
  0 <= k /\
  analyze_repetition U text =
  Ok (if len words <? 10 then 0.5%R
      else py_min 1.0 (IZR k / IZR (len words) * 10)).
Proof.
  intros words k. split.
  - pose proof (nodup_length_le (bigrams_of words)).
    pose proof (nodup_length_le (trigrams_of words)).
    unfold k, set, len. lia.
  - unfold analyze_repetition. fold words.
    destruct (Z.ltb_spec (len words) 10); [reflexivity|]. cbv zeta.
    rewrite py_div_IZR by lia. cbn [bind]. fold k.
    now rewrite Z.max_l by lia.
Qed.

Lemma repetition_bounds text :
  exists r, analyze_repetition U text = Ok r /\ (0 <= r <= 1)%R.
Proof.
  destruct (repetition_value text) as [Hk ->].
  eexists. split; [reflexivity|].
  destruct (Z.ltb_spec (len (findall_words U (lower U text))) 10); [lra|].
  match goal with |- context [(IZR ?k / IZR ?n)%R] =>
    assert (Hq : (0 <= IZR k / IZR n)%R)
  end.
  { apply Rmult_le_pos; [apply IZR_le; lia|].
    left. apply Rinv_0_lt_compat. apply IZR_lt. lia. }
  unfold py_min. destruct (Rlt_dec _ _); lra.
Qed.

Lemma vocabulary_bounds text :
  exists v, analyze_vocabulary_diversity U text = Ok v /\ (0 <= v < 1)%R.
Proof.
  unfold analyze_vocabulary_diversity.
  set (words := findall_words U (lower U text)).
  destruct (Z.ltb_spec (len words) 5); [eexists; split; [reflexivity | lra]|].
  rewrite py_div_IZR by lia. cbn [bind].
  eexists. split; [reflexivity|].
  assert (Hne : words <> []).
  { intros E. rewrite E in H. unfold len in H. simpl in H. lia. }
  pose proof (nodup_nonempty Hne) as H1.
  pose proof (nodup_length_le words) as H2.
  assert (Hq : (0 <= IZR (len (set words)) / IZR (len words) <= 1)%R)
    by (apply div_nonneg_le_1; unfold set, len; lia).
  assert (Hpos : (0 < IZR (len (set words)) / IZR (len words))%R).
  { apply Rdiv_lt_0_compat; apply IZR_lt; unfold set, len; lia. }
  lra.
Qed.

Lemma structure_bounds text :
  exists s, analyze_sentence_structure U text = Ok s /\ (0 <= s <= 1)%R.
Proof.
  unfold analyze_sentence_structure. cbv zeta.
  destruct (_ <? 2); [eexists; split; [reflexivity | lra]|].
  eexists. split; [reflexivity|].
  match goal with |- context [py_max 0.0 (1.0 - ?cv)%R] =>
    assert (Hcv : (0 <= cv)%R)
  end.
  { destruct (Rlt_dec 0 _) as [Hm|_]; [|lra].
    apply Rmult_le_pos; [apply sqrt_pos|].
    left. now apply Rinv_0_lt_compat. }
  unfold py_max. destruct (Rlt_dec 0.0 _); lra.
Qed.

Lemma perplexity_bounds text :
  fits_in_memory (lower U text) ->
  exists p, calculate_perplexity U text = Ok p /\ (0 <= p <= 0.99)%R.
Proof.
  intros Hfit.
  destruct (Z.ltb_spec (len (findall_words U (lower U text))) 10) as [Hs|Hl].
  - unfold calculate_perplexity.
    destruct (Z.ltb_spec (len (findall_words U (lower U text))) 10); [|lia].
    eexists. split; [reflexivity | lra].
  - eexists. split; [now apply calculate_perplexity_value|].
    assert (HP : (1 <= pseudo_perplexity
                         (bigrams_of (findall_words U (lower U text))))%R).
    { apply pseudo_perplexity_range. rewrite len_bigrams; lia. }
    unfold py_max, py_min.
    destruct (Rlt_dec _ 1.0); destruct (Rlt_dec 0.0 _); lra.
Qed.

(** X8.  Every sub-analyzer returns a score in the unit interval:
    repetition and structure in [0, 1], vocabulary in [0, 1), perplexity in
    [0, 0.99]. *)
Theorem signal_scores_in_unit_interval (text : str) :
  fits_in_memory (lower U text) ->
  exists rep voc st pp,
    analyze_repetition U text = Ok rep /\
    analyze_vocabulary_diversity U text = Ok voc /\
    analyze_sentence_structure U text = Ok st /\
    calculate_perplexity U text = Ok pp /\
    (0 <= rep <= 1)%R /\ (0 <= voc < 1)%R /\
    (0 <= st <= 1)%R /\ (0 <= pp <= 0.99)%R.
Proof.
  intros Hfit.
  destruct (repetition_bounds text) as (rep & Hrep & ?).
  destruct (vocabulary_bounds text) as (voc & Hvoc & ?).
  destruct (structure_bounds text) as (st & Hst & ?).
  destruct (perplexity_bounds text Hfit) as (pp & Hpp & ?).
  exists rep, voc, st, pp. repeat (split; [assumption|]). assumption.
Qed.

(** X9.  The final clamp of the heuristic tier never changes the value: the
    probability returned is the plain weighted sum of the four scores, and
    it is below 1. *)
Theorem heuristic_clamp_is_inactive (text : str) :
  fits_in_memory (lower U text) ->
  exists r rep voc st pp,
    analyze_repetition U text = Ok rep /\
    analyze_vocabulary_diversity U text = Ok voc /\
    analyze_sentence_structure U text = Ok st /\
    calculate_perplexity U text = Ok pp /\
    heuristic_detection U text = Ok r /\
    ai_probability r =
      (0.3 * rep + 0.2 * voc + 0.25 * st + 0.25 * pp)%R /\
    (0 <= ai_probability r < 1)%R.
Proof.
  intros Hfit.
  destruct (repetition_bounds text) as (rep & Hrep & ?).
  destruct (vocabulary_bounds text) as (voc & Hvoc & ?).
  destruct (structure_bounds text) as (st & Hst & ?).
  destruct (perplexity_bounds text Hfit) as (pp & Hpp & ?).
  destruct (extract_writing_features_returns U text) as (f & Hf & _).
  exists (heuristic_result f rep voc st pp), rep, voc, st, pp.
  repeat (split; [assumption|]).
  split; [now apply heuristic_detection_steps|].
  cbn [ai_probability heuristic_result]. unfold fusion, clamp, Rmin, Rmax.
  destruct (Rle_dec 0 _); destruct (Rle_dec 1 _); lra.
Qed.

(** X10.  From five words on, the vocabulary score is one minus the
    vocabulary diversity reported among the writing features. *)
Theorem vocabulary_score_matches_features (text : str) :
  5 <= len (findall_words U (lower U text)) ->
  exists f v,
    extract_writing_features U text = Ok f /\
    analyze_vocabulary_diversity U text = Ok v /\
    v = (1 - vocabulary_diversity f)%R.
Proof.
  intros Hlen.
  unfold extract_writing_features, analyze_vocabulary_diversity.
  destruct (Z.ltb_spec (len (findall_words U (lower U text))) 5); [lia|].
  repeat (rewrite py_div_IZR by lia; cbn [bind]).
  eexists. eexists. split; [reflexivity|]. split; [reflexivity|].
  cbn [vocabulary_diversity]. rewrite Z.max_l by lia. lra.
Qed.


End Scores.

(** *** The ML tier and [detect] *)

Lemma py_clamp_unit x : (0 <= py_min 1.0 (py_max 0.0 x) <= 1)%R.
Proof.
  unfold py_min, py_max.
  destruct (Rlt_dec 0.0 x); destruct (Rlt_dec _ 1.0); lra.
Qed.

Lemma confidence_step_values n : In (confidence_step n) [0.3; 0.6; 0.8; 0.9]%R.
Proof.
  unfold confidence_step.
  repeat (destruct (_ <? _); [simpl; tauto|]). simpl; tauto.
Qed.

Section Tiers.

Variable U : UnicodeDB.

Lemma calculate_ai_probability_bounds (text : str) (t : Tensor) :
  exists a, calculate_ai_probability U text t = Ok a /\ (0 <= a <= 1)%R.
Proof.
  unfold calculate_ai_probability.
  match goal with |- context [try_except ?b _] => destruct b as [x|] eqn:Hb end;
    cbn [try_except]; [|eexists; split; [reflexivity | lra]].
  exists x. split; [reflexivity|].
  destruct (last_probability t); cbn [bind] in Hb; [|discriminate].
  destruct (extract_writing_features U text); cbn [bind] in Hb;
    [|discriminate].
  destruct (analyze_repetition U text); cbn [bind] in Hb; [|discriminate].
  destruct (analyze_vocabulary_diversity U text); cbn [bind] in Hb;
    [|discriminate].
  injection Hb as <-. apply py_clamp_unit.
Qed.

(** X12.  [_calculate_ai_probability] never raises and always returns a
    value in [0, 1]; when the probabilities tensor has no row, or an empty
    first row, the value is the neutral 0.5. *)
Theorem ml_probability_is_bounded (text : str) (probabilities : Tensor) :
  exists a,
    calculate_ai_probability U text probabilities = Ok a /\
    (0 <= a <= 1)%R /\
    ((probabilities = [] \/ exists rows, probabilities = [] :: rows) ->
     a = 0.5%R).
Proof.
  unfold calculate_ai_probability.
  destruct (last_probability probabilities) as [base|e] eqn:Hlast;
    cbn [bind try_except].
  - destruct (extract_writing_features U text) as [f|]; cbn [bind try_except];
      [|eexists; split; [reflexivity|]; split; [lra|];
        intros [-> | [rows ->]]; discriminate].
    destruct (analyze_repetition U text) as [rep|]; cbn [bind try_except];
      [|eexists; split; [reflexivity|]; split; [lra|];
        intros [-> | [rows ->]]; discriminate].
    destruct (analyze_vocabulary_diversity U text) as [voc|];
      cbn [bind try_except];
      [|eexists; split; [reflexivity|]; split; [lra|];
        intros [-> | [rows ->]]; discriminate].
    eexists. split; [reflexivity|]. split; [apply py_clamp_unit|].
    intros [-> | [rows ->]]; discriminate.
  - eexists. split; [reflexivity|]. split; [lra | reflexivity].
Qed.

Lemma ml_attempt_fields lib text r :
  ml_attempt U lib text = Ok r ->
  exists t a wc,
    calculate_ai_probability U text t = Ok a /\ ai_probability r = a /\
    tensor_get_word_count lib t = Ok wc /\
    confidence r = confidence_step wc /\
    method r = Some (VStr "ml_model").
Proof.
  unfold ml_attempt. intros H.
  destruct (forward lib text) as [t|]; cbn [bind] in H; [|discriminate].
  destruct (calculate_ai_probability U text t) as [a|] eqn:Ha;
    cbn [bind] in H; [|discriminate].
  unfold calculate_confidence in H. cbn [get_word_count] in H.
  destruct (tensor_get_word_count lib t) as [wc|] eqn:Hwc;
    cbn [bind] in H; [|discriminate].
  exists t, a, wc.
  assert (Hc : (if wc <? 10 then Ok 0.3%R
                else if wc <? 50 then Ok 0.6%R
                else if wc <? 200 then Ok 0.8%R else Ok 0.9%R) =
               Ok (confidence_step wc)).
  { unfold confidence_step. repeat (destruct (_ <? _); [reflexivity|]).
    reflexivity. }
  rewrite Hc in H. cbn [bind] in H.
  destruct (extract_writing_features U text); cbn [bind] in H;
    [|discriminate].
  destruct (calculate_perplexity U text); cbn [bind] in H; [|discriminate].
  injection H as <-. repeat split; assumption || reflexivity.
Qed.

(** X13.  Whatever tier answers and whatever the model computes, the result
    of the text detector has a probability in [0, 1], a confidence among
    0.3, 0.6, 0.8 and 0.9, and the method tag "heuristic" or "ml_model". *)
Theorem text_result_is_well_formed (self : Detector) (text : str) :
  fits_in_memory (lower U text) ->
  exists r,
    detect U self text = Ok r /\
    (0 <= ai_probability r <= 1)%R /\
    In (confidence r) [0.3; 0.6; 0.8; 0.9]%R /\
    (method r = Some (VStr "heuristic") \/ method r = Some (VStr "ml_model")).
Proof.
  intros Hfit.
  destruct (heuristic_detection_returns U text Hfit)
    as (f & rep & voc & st & pp & _ & _ & _ & _ & _ & _ & Hh).
  assert (Hheur : exists r,
             heuristic_detection U text = Ok r /\
             (0 <= ai_probability r <= 1)%R /\
             In (confidence r) [0.3; 0.6; 0.8; 0.9]%R /\
             (method r = Some (VStr "heuristic") \/
              method r = Some (VStr "ml_model"))).
  { exists (heuristic_result f rep voc st pp). split; [exact Hh|].
    split; [apply clamp_bounds; lra|].
    split; [apply confidence_step_values | now left]. }
  unfold detect.
  destruct (transformers_available self); [|exact Hheur].
  destruct (model self) as [lib|]; [|exact Hheur].
  destruct (ml_detection_cases U lib text) as [(r & Ha & Hd) | (_ & Hd)].
  - exists r. split; [exact Hd|].
    destruct (ml_attempt_fields _ _ Ha) as (t & a & wc & Hp & <- & _ & -> & Hm).
    destruct (calculate_ai_probability_bounds text t) as (a' & Ha' & Hb).
    rewrite Hp in Ha'. injection Ha' as <-.
    split; [exact Hb|]. split; [apply confidence_step_values | now right].
  - rewrite Hd. exact Hheur.
Qed.

(** X14.  If the probabilities object has no attribute [get], as a torch
    tensor has none, the call of [_calculate_confidence] in the ML tier
    raises on every text, and [detect] answers with the result of the
    heuristic tier whatever the model computed. *)
Theorem tensor_without_get_means_heuristic (self : Detector) (text : str) :
  (forall lib t, model self = Some lib ->
                 exists e, tensor_get_word_count lib t = Raise e) ->
  detect U self text = heuristic_detection U text /\
  (forall r, detect U self text = Ok r ->
             method r = Some (VStr "heuristic")).
Proof.
  intros Hget.
  assert (Hd : detect U self text = heuristic_detection U text).
  { unfold detect. destruct (transformers_available self); [|reflexivity].
    destruct (model self) as [lib|]; [|reflexivity].
    apply ml_detection_without_get. intros t. now apply Hget. }
  split; [exact Hd|]. intros r Hr. rewrite Hd in Hr.
  unfold heuristic_detection in Hr.
  repeat match type of Hr with
         | bind ?m _ = Ok _ =>
             destruct m; cbn [bind] in Hr; [|discriminate]
         end.
  injection Hr as <-. reflexivity.
Qed.

End Tiers.

Lemma text_result_is_well_formed_witness :
  exists r,
    detect ascii_only (ml_detector dict_like_model) repetitive_text = Ok r /\
    (0 <= ai_probability r <= 1)%R /\
    In (confidence r) [0.3; 0.6; 0.8; 0.9]%R /\
    (method r = Some (VStr "heuristic") \/ method r = Some (VStr "ml_model")).
Proof.
  apply text_result_is_well_formed. vm_compute. reflexivity.
Defined.

Lemma tensor_without_get_means_heuristic_witness :
  detect ascii_only (ml_detector tensor_model) hi =
    heuristic_detection ascii_only hi /\
  (forall r, detect ascii_only (ml_detector tensor_model) hi = Ok r ->
             method r = Some (VStr "heuristic")).
Proof.
  apply tensor_without_get_means_heuristic.
  intros lib t H. injection H as <-. now exists AttributeError.
Defined.

Lemma signal_scores_in_unit_interval_witness :
  exists rep voc st pp,
    analyze_repetition ascii_only varied_text = Ok rep /\
    analyze_vocabulary_diversity ascii_only varied_text = Ok voc /\
    analyze_sentence_structure ascii_only varied_text = Ok st /\
    calculate_perplexity ascii_only varied_text = Ok pp /\
    (0 <= rep <= 1)%R /\ (0 <= voc < 1)%R /\
    (0 <= st <= 1)%R /\ (0 <= pp <= 0.99)%R.
Proof.
  apply signal_scores_in_unit_interval. vm_compute. reflexivity.
Defined.

Lemma heuristic_clamp_is_inactive_witness :
  exists r rep voc st pp,
    analyze_repetition ascii_only repetitive_text = Ok rep /\
    analyze_vocabulary_diversity ascii_only repetitive_text = Ok voc /\
    analyze_sentence_structure ascii_only repetitive_text = Ok st /\
    calculate_perplexity ascii_only repetitive_text = Ok pp /\
    heuristic_detection ascii_only repetitive_text = Ok r /\
    ai_probability r =
      (0.3 * rep + 0.2 * voc + 0.25 * st + 0.25 * pp)%R /\
    (0 <= ai_probability r < 1)%R.
Proof.
  apply heuristic_clamp_is_inactive. vm_compute. reflexivity.
Defined.

Lemma vocabulary_score_matches_features_witness :
  exists f v,
    extract_writing_features ascii_only repetitive_text = Ok f /\
    analyze_vocabulary_diversity ascii_only repetitive_text = Ok v /\
    v = (1 - vocabulary_diversity f)%R.
Proof.
  apply vocabulary_score_matches_features. vm_compute. discriminate.
Defined.


Lemma perplexity_of_bigram_frequencies_witness :
  calculate_perplexity ascii_only varied_text =
    Ok (py_max 0.0
          (py_min 1.0
             (1.0 - pseudo_perplexity
                      (bigrams_of (findall_words ascii_only
                                     (lower ascii_only varied_text))) / 100)))
  /\
  (1 <= pseudo_perplexity
          (bigrams_of (findall_words ascii_only
                         (lower ascii_only varied_text))))%R.
Proof.
  destruct (@perplexity_of_bigram_frequencies ascii_only varied_text)
    as (_ & _ & Heq & HP & _).
  - vm_compute. reflexivity.
  - vm_compute. discriminate.
  - split; [exact Heq | exact HP].
Defined.

Lemma bigram_table_counts_occurrences_witness :
  freq_index (str_of "a b")
    (count_bigrams
       (bigrams_of (findall_words ascii_only
                      (lower ascii_only repetitive_text)))) = Ok 20.
Proof.
  refine (proj1 (proj1 (@bigram_table_counts_occurrences
            (bigrams_of (findall_words ascii_only
                           (lower ascii_only repetitive_text)))
            (str_of "a b")) _)).
  vm_compute. do 1 left. reflexivity.
Defined.

Lemma lower_preserves_words_witness :
  findall_words ascii_only (lower ascii_only (str_of "Hi There")) =
  map (map ascii_lower) (findall_words ascii_only (str_of "Hi There")).
Proof.
  apply (@StringFacts.lower_preserves_words ascii_only (str_of "Hi There")).
  reflexivity.
Defined.

End TextExtras.

(** ** The image detector: analyzers, tiers and confidence *)

Module ImageExtras.
Import ImageAIDetector ImageSpec ImageFacts.

Lemma py_unit_clamp x : (0 <= py_max 0.0 (py_min 1.0 x) <= 1)%R.
Proof.
  unfold py_min, py_max.
  destruct (Rlt_dec x 1.0); destruct (Rlt_dec 0.0 _); lra.
Qed.

Section Analyzers.

Variable cv : Toolkit.

Lemma frequency_returns img :
  exists f,
    frequency_domain_analysis cv img = Ok f /\ (f <= 1)%R /\
    ((exists e, frequency_means cv img = Raise e) -> f = 0.5%R) /\
    (nonnegative_spectrum cv -> (0 <= f)%R).
Proof.
  unfold frequency_domain_analysis.
  destruct (frequency_means cv img) as [[high low]|e] eqn:Hm;
    cbn [bind try_except].
  - eexists. split; [reflexivity|]. split; [|split].
    + unfold py_min. destruct (Rlt_dec _ _); lra.
    + intros [e He]. discriminate.
    + intros Hnn. destruct (Hnn img high low Hm) as [Hh Hl].
      assert (Hq : (0 <= high / (low + 1e-8) / 10.0)%R).
      { apply Rmult_le_pos; [|lra].
        apply Rmult_le_pos; [exact Hh|].
        left. apply Rinv_0_lt_compat. lra. }
      unfold py_min. destruct (Rlt_dec _ _); lra.
  - eexists. split; [reflexivity|]. split; [lra|]. split; [reflexivity | lra].
Qed.

Lemma artifacts_returns img :
  exists a,
    detect_ai_artifacts cv img = Ok a /\ (0 <= a <= 1)%R /\
    ((exists e, color_edge_stats cv img = Raise e) -> a = 0.5%R).
Proof.
  unfold detect_ai_artifacts.
  destruct (color_edge_stats cv img) as [[[h l] d]|e]; cbn [bind try_except].
  - eexists. split; [reflexivity|]. split; [apply py_unit_clamp|].
    intros [e He]. discriminate.
  - eexists. split; [reflexivity|]. split; [lra | reflexivity].
Qed.

Lemma texture_returns img :
  exists t,
    analyze_texture_patterns cv img = Ok t /\ (0 <= t <= 1)%R /\
    ((exists e, mean_local_variance cv img = Raise e) -> t = 0.5%R).
Proof.
  unfold analyze_texture_patterns.
  destruct (mean_local_variance cv img) as [v|e]; cbn [bind try_except].
  - eexists. split; [reflexivity|]. split; [apply py_unit_clamp|].
    intros [e He]. discriminate.
  - eexists. split; [reflexivity|]. split; [lra | reflexivity].
Qed.

(** X15.  The three pixel analyzers never raise: a failure inside OpenCV or
    numpy is answered by the neutral score 0.5.  The artifact and texture
    scores lie in [0, 1]; the frequency score is at most 1 and, the
    spectrum means not being negative, at least 0. *)
Theorem pixel_analyzers_absorb_failures (img : ndarray) :
  exists f a t,
    frequency_domain_analysis cv img = Ok f /\
    detect_ai_artifacts cv img = Ok a /\
    analyze_texture_patterns cv img = Ok t /\
    (f <= 1)%R /\ (0 <= a <= 1)%R /\ (0 <= t <= 1)%R /\
    (nonnegative_spectrum cv -> (0 <= f)%R) /\
    ((exists e, frequency_means cv img = Raise e) -> f = 0.5%R) /\
    ((exists e, color_edge_stats cv img = Raise e) -> a = 0.5%R) /\
    ((exists e, mean_local_variance cv img = Raise e) -> t = 0.5%R).
Proof.
  destruct (frequency_returns img) as (f & Hf & Hf1 & Hfe & Hf0).
  destruct (artifacts_returns img) as (a & Ha & Ha1 & Hae).
  destruct (texture_returns img) as (t & Ht & Ht1 & Hte).
  exists f, a, t. repeat (split; [assumption|]). assumption.
Qed.

(** X16.  For an array with height and width and a non-zero number of
    elements, the confidence is the step function of the smaller of the
    two: 0.4 below 64 pixels, 0.6 below 256, 0.8 below 1024, 0.9 from there
    on, so it never decreases when both dimensions grow.  An array without
    elements gets 0.3, and a non-empty array with fewer than two dimensions
    makes the function raise. *)
Theorem image_confidence_is_step (img : ndarray) :
  (size img = 0 -> calculate_confidence img = Ok 0.3%R) /\
  (size img <> 0 ->
   forall h w rest, shape img = h :: w :: rest ->
     calculate_confidence img = Ok (image_confidence_step (Z.min h w))) /\
  (size img <> 0 -> (List.length (shape img) < 2)%nat ->
     calculate_confidence img = Raise ValueError) /\
  (forall m n, m <= n ->
     (image_confidence_step m <= image_confidence_step n)%R).
Proof.
  unfold calculate_confidence. repeat split.
  - intros ->. reflexivity.
  - intros Hs h w rest Hshape. rewrite Hshape.
    destruct (Z.eqb_spec (size img) 0); [contradiction|].
    unfold image_confidence_step.
    repeat match goal with
           | |- context [?a <? ?b] => destruct (Z.ltb_spec a b)
           end; simpl; try reflexivity; lia.
  - intros Hs Hl. destruct (Z.eqb_spec (size img) 0); [contradiction|].
    destruct (shape img) as [|h [|w rest]]; simpl in Hl; try reflexivity; lia.
  - intros m n Hmn. unfold image_confidence_step.
    repeat match goal with
           | |- context [?a <? ?b] => destruct (Z.ltb_spec a b)
           end; try lra; lia.
Qed.

(** The result the advanced tier builds from the values of its steps. *)
Lemma advanced_detection_decoded data img h w rest f a t c :
  imdecode cv data = Ok (Some img) ->
  shape img = h :: w :: rest ->
  frequency_domain_analysis cv img = Ok f ->
  detect_ai_artifacts cv img = Ok a ->
  analyze_texture_patterns cv img = Ok t ->
  calculate_confidence img = Ok c ->
  advanced_detection cv data =
  Ok {| ai_probability :=
          (f * 0.35 + a * 0.25 + bucket (len data) * 0.20 + t * 0.20)%R;
        confidence := c;
        analysis :=
          [("method", VStr "advanced_cv");
           ("frequency_analysis", VFloat f);
           ("artifact_detection", VFloat a);
           ("metadata_analysis", VFloat (bucket (len data)));
           ("texture_analysis", VFloat t);
           ("image_size", VStr (decimal w ++ "x" ++ decimal h)%string);
           ("channels", VInt (match rest with
                              | ch :: _ => ch
                              | [] => 1
                              end))] |}.
Proof.
  intros Hd Hs Hf Ha Ht Hc. unfold advanced_detection.
  rewrite Hd. cbn [bind]. rewrite Hf, Ha, analyze_metadata_bucket, Ht.
  cbn [bind]. rewrite Hc. cbn [bind]. rewrite Hs. reflexivity.
Qed.

(** X17.  When the bytes decode to an array with height and width, the
    advanced tier answers, even if every pixel analyzer fails inside: the
    method is "advanced_cv", the probability is the weighted sum 0.35,
    0.25, 0.20, 0.20 of the frequency, artifact, metadata and texture
    scores, and the size is reported as width x height. *)
Theorem decoded_image_gets_advanced_tier
    (data : bytes) (img : ndarray) (h w : Z) (rest : list Z) :
  imdecode cv data = Ok (Some img) ->
  shape img = h :: w :: rest ->
  exists r f a m t,
    detect cv true data = Ok r /\
    frequency_domain_analysis cv img = Ok f /\
    detect_ai_artifacts cv img = Ok a /\
    analyze_metadata data = Ok m /\
    analyze_texture_patterns cv img = Ok t /\
    ai_probability r = (f * 0.35 + a * 0.25 + m * 0.20 + t * 0.20)%R /\
    calculate_confidence img = Ok (confidence r) /\
    method r = Some (VStr "advanced_cv") /\
    dict_get "image_size" (analysis r) =
      Some (VStr (decimal w ++ "x" ++ decimal h)%string).
Proof.
  intros Hd Hs.
  destruct (frequency_returns img) as (f & Hf & _).
  destruct (artifacts_returns img) as (a & Ha & _).
  destruct (texture_returns img) as (t & Ht & _).
  assert (Hc : exists c, calculate_confidence img = Ok c).
  { unfold calculate_confidence. rewrite Hs.
    destruct (size img =? 0); [eauto|].
    repeat (destruct (_ || _); [eauto|]). eauto. }
  destruct Hc as [c Hc].
  eexists. exists f, a, (bucket (len data)), t.
  split.
  { unfold detect.
    apply (advanced_detection_decoded data Hd Hs Hf Ha Ht Hc). }
  cbn [ai_probability confidence analysis].
  repeat (split; [first [assumption | reflexivity
                         | apply analyze_metadata_bucket]|]).
  reflexivity.
Qed.

Lemma image_result_is_never_the_fallback_aux (avail : bool) (data : bytes) :
  exists r, detect cv avail data = Ok r /\ r <> fallback_result.
Proof.
  assert (Hbasic : exists r,
             Ok (basic_result data) = Ok r /\ r <> fallback_result)
    by (exists (basic_result data); split; [reflexivity | discriminate]).
  unfold detect. destruct avail; [|now rewrite basic_detection_eq].
  unfold advanced_detection.
  destruct (imdecode cv data) as [[img|]|e]; cbn [bind try_except];
    rewrite ?basic_detection_eq; cbn [try_except]; try exact Hbasic.
  destruct (frequency_returns img) as (f & -> & _).
  destruct (artifacts_returns img) as (a & -> & _).
  rewrite analyze_metadata_bucket.
  destruct (texture_returns img) as (t & -> & _).
  cbn [bind].
  destruct (calculate_confidence img); cbn [bind try_except];
    rewrite ?basic_detection_eq; try exact Hbasic.
  destruct (shape img) as [|h [|w rest]]; cbn [try_except];
    rewrite ?basic_detection_eq; try exact Hbasic.
  eexists. split; [reflexivity | discriminate].
Qed.

(** X18.  Every result of the image detector is tagged "basic" or
    "advanced_cv": the terminal fallback (0.5, 0.3, "fallback") is never
    returned.  The confidence is one of 0.3, 0.4, 0.5, 0.6, 0.8, 0.9 and the
    probability is at most 0.96; it is at least 0.06 when the spectrum means
    are not negative. *)
Theorem image_result_is_never_the_fallback (avail : bool) (data : bytes) :
  exists r,
    detect cv avail data = Ok r /\
    (method r = Some (VStr "basic") \/
     method r = Some (VStr "advanced_cv")) /\
    r <> fallback_result /\
    In (confidence r) [0.3; 0.4; 0.5; 0.6; 0.8; 0.9]%R /\
    (ai_probability r <= 0.96)%R /\
    (nonnegative_spectrum cv -> (0.06 <= ai_probability r)%R).
Proof.
  assert (Hbasic : exists r,
             Ok (basic_result data) = Ok r /\
             (method r = Some (VStr "basic") \/
              method r = Some (VStr "advanced_cv")) /\
             r <> fallback_result /\
             In (confidence r) [0.3; 0.4; 0.5; 0.6; 0.8; 0.9]%R /\
             (ai_probability r <= 0.96)%R /\
             (nonnegative_spectrum cv -> (0.06 <= ai_probability r)%R)).
  { exists (basic_result data). split; [reflexivity|].
    split; [now left|]. split; [discriminate|].
    split; [simpl; tauto|].
    cbn [ai_probability basic_result]. rewrite bucket_clamp.
    pose proof (bucket_values (len data)) as Hv. simpl in Hv.
    split; [|intros _]; lra. }
  unfold detect. destruct avail; [|now rewrite basic_detection_eq].
  unfold advanced_detection.
  destruct (imdecode cv data) as [[img|]|e]; cbn [bind try_except];
    rewrite ?basic_detection_eq; cbn [try_except]; try exact Hbasic.
  destruct (frequency_returns img) as (f & -> & Hf1 & _ & Hf0).
  destruct (artifacts_returns img) as (a & -> & Ha1 & _).
  rewrite analyze_metadata_bucket.
  destruct (texture_returns img) as (t & -> & Ht1 & _).
  cbn [bind].
  pose proof (bucket_values (len data)) as Hv. simpl in Hv.
  unfold calculate_confidence.
  destruct (size img =? 0); cbn [bind].
  - destruct (shape img) as [|h [|w rest]]; cbn [try_except];
      rewrite ?basic_detection_eq; try exact Hbasic.
    eexists. split; [reflexivity|]. split; [now right|].
    split; [discriminate|]. split; [simpl; tauto|].
    cbn [ai_probability]. split; [|intros Hnn; specialize (Hf0 Hnn)]; lra.
  - destruct (shape img) as [|h [|w rest]]; cbn [bind try_except];
      rewrite ?basic_detection_eq; try exact Hbasic.
    repeat (destruct (_ || _); cbn [bind try_except];
            [eexists; split; [reflexivity|]; split; [now right|];
             split; [discriminate|]; split; [simpl; tauto|];
             cbn [ai_probability];
             split; [|intros Hnn; specialize (Hf0 Hnn)]; lra|]).
    eexists. split; [reflexivity|]. split; [now right|].
    split; [discriminate|]. split; [simpl; tauto|].
    cbn [ai_probability]. split; [|intros Hnn; specialize (Hf0 Hnn)]; lra.
Qed.

End Analyzers.

(** X19.  In the basic tier a longer payload never gets a smaller
    probability, the reported file size is the length of the payload, and
    the empty payload is answered like any other small one, with 0.3. *)
Theorem basic_tier_is_monotone_in_size (data1 data2 : bytes) :
  len data1 <= len data2 ->
  exists r1 r2,
    basic_detection data1 = Ok r1 /\
    basic_detection data2 = Ok r2 /\
    (ai_probability r1 <= ai_probability r2)%R /\
    dict_get "file_size" (analysis r1) = Some (VInt (len data1)) /\
    (data1 = [] -> ai_probability r1 = 0.3%R).
Proof.
  intros Hle. exists (basic_result data1), (basic_result data2).
  rewrite !basic_detection_eq. repeat (split; [reflexivity|]).
  cbn [ai_probability basic_result]. rewrite !bucket_clamp. repeat split.
  - unfold bucket.
    repeat match goal with
           | |- context [?a <? ?b] => destruct (Z.ltb_spec a b)
           end; try lra; lia.
  - intros ->. reflexivity.
Qed.

Lemma basic_tier_is_monotone_in_size_witness :
  exists r1 r2,
    basic_detection garbage = Ok r1 /\
    basic_detection payload_5000 = Ok r2 /\
    (ai_probability r1 <= ai_probability r2)%R /\
    dict_get "file_size" (analysis r1) = Some (VInt (len garbage)) /\
    (garbage = [] -> ai_probability r1 = 0.3%R).
Proof.
  apply basic_tier_is_monotone_in_size. vm_compute. discriminate.
Defined.

Lemma decoded_image_gets_advanced_tier_witness :
  exists r,
    detect failing_analysis true garbage = Ok r /\
    ai_probability r = (0.5 * 0.35 + 0.5 * 0.25 + 0.3 * 0.20 + 0.5 * 0.20)%R /\
    method r = Some (VStr "advanced_cv") /\
    dict_get "image_size" (analysis r) = Some (VStr "128x96").
Proof.
  destruct (@decoded_image_gets_advanced_tier failing_analysis garbage
              {| shape := [96; 128; 3]; pixels := [] |} 96 128 [3])
    as (r & f & a & m & t & Hd & Hf & Ha & Hm & Ht & Hai & _ & Hmeth & Hsz).
  - reflexivity.
  - reflexivity.
  - exists r. split; [exact Hd|].
    injection Hf as <-. injection Ha as <-. injection Ht as <-.
    rewrite analyze_metadata_bucket in Hm. injection Hm as <-.
    split; [exact Hai|]. split; [exact Hmeth | exact Hsz].
Defined.

End ImageExtras.

(** ** The routes *)

Module RouteFacts.
Import Routes.

Section Routes.

Variable U : UnicodeDB.
Variable text_detector : TextAIDetector.Detector.
Variable cv : ImageAIDetector.Toolkit.
Variable opencv_available : bool.
Variable json_dumps : dict -> Result string.
Variable MAX_FILE_SIZE : Z.
Variable limit_exceeded : bool.
Variable db : Session.

Lemma blank_test (text : str) :
  negb (truthy text) || negb (truthy (strip U text)) =
  forallb (is_space U) text.
Proof.
  destruct (forallb (is_space U) text) eqn:Hb.
  - apply (StringFacts.strip_nil_iff U) in Hb. rewrite Hb.
    simpl. apply orb_true_r.
  - assert (Hs : strip U text <> []).
    { intros H. apply (StringFacts.strip_nil_iff U) in H. congruence. }
    destruct text as [|c text]; [discriminate|].
    destruct (strip U (c :: text)); [congruence | reflexivity].
Qed.

(** What [save] can end in. *)
Lemma save_outcomes (row : string -> ScanRow) (result : DetectionResult) :
  (forall body done,
     save json_dumps db row result = Return body done ->
     body = result /\
     exists js, json_dumps (analysis result) = Ok js /\
                execute db (row js) = Ok tt /\
                commit db = Ok tt /\
                done = [Execute (row js); Commit]) /\
  (forall js, json_dumps (analysis result) = Ok js ->
     execute db (row js) = Ok tt -> commit db = Ok tt ->
     save json_dumps db row result =
       Return result [Execute (row js); Commit]) /\
  (forall e, json_dumps (analysis result) = Raise e ->
     save json_dumps db row result = Unhandled e []) /\
  (forall js e, json_dumps (analysis result) = Ok js ->
     execute db (row js) = Raise e ->
     save json_dumps db row result = Unhandled e []) /\
  (forall js e, json_dumps (analysis result) = Ok js ->
     execute db (row js) = Ok tt -> commit db = Raise e ->
     save json_dumps db row result = Unhandled e [Execute (row js)]) /\
  (forall status detail,
     save json_dumps db row result <> HTTPException status detail).
Proof.
  unfold save.
  split; [|split; [|split; [|split; [|split]]]].
  - intros body done.
    destruct (json_dumps (analysis result)) as [js|]; [|discriminate].
    destruct (execute db (row js)) as [[]|] eqn:He; [|discriminate].
    destruct (commit db) as [[]|] eqn:Hc; [|discriminate].
    intros [= <- <-]. split; [reflexivity|].
    exists js. repeat split; assumption.
  - intros js -> -> ->. reflexivity.
  - intros e ->. reflexivity.
  - intros js e -> ->. reflexivity.
  - intros js e -> -> ->. reflexivity.
  - intros status detail.
    destruct (json_dumps (analysis result)); [|discriminate].
    destruct (execute db _); [|discriminate].
    destruct (commit db); discriminate.
Qed.


(** X21.  For a text with a non-blank character that the rate limiter lets
    through, the detector returns a result, and the text route returns a
    body only after one row was inserted and committed: the body is the
    detector's result and the row carries its probability, its confidence,
    the JSON of its analysis and the first 1000 characters of the text.
    When [json.dumps] and the two database calls succeed the route does
    return.  When [json.dumps] or the insert raises, nothing was stored;
    when the commit raises, the insert alone was done. *)
Theorem text_route_stores_what_it_returns (text : str) :
  fits_in_memory (lower U text) ->
  limit_exceeded = false ->
  forallb (is_space U) text = false ->
  let route :=
    detect_text U text_detector json_dumps limit_exceeded db text in
  exists r,
    TextAIDetector.detect U text_detector text = Ok r /\
    (forall body done,
       route = Return body done ->
       body = r /\
       exists js, json_dumps (analysis r) = Ok js /\
                  done = [Execute (text_row text r js); Commit]) /\
    (forall js, json_dumps (analysis r) = Ok js ->
       execute db (text_row text r js) = Ok tt -> commit db = Ok tt ->
       route = Return r [Execute (text_row text r js); Commit]) /\
    (forall e, json_dumps (analysis r) = Raise e -> route = Unhandled e []) /\
    (forall js e, json_dumps (analysis r) = Ok js ->
       execute db (text_row text r js) = Raise e -> route = Unhandled e []) /\
    (forall js e, json_dumps (analysis r) = Ok js ->
       execute db (text_row text r js) = Ok tt -> commit db = Raise e ->
       route = Unhandled e [Execute (text_row text r js)]) /\
    (forall js,
       row_ai_probability (text_row text r js) = ai_probability r /\
       row_confidence (text_row text r js) = confidence r /\
       row_analysis (text_row text r js) = js /\
       content (text_row text r js) = Some (firstn 1000 text) /\
       len (firstn 1000 text) <= 1000 /\
       (len text <= 1000 -> content (text_row text r js) = Some text)).
Proof.
  intros Hfit -> Hblank route. unfold route, detect_text.
  rewrite blank_test, Hblank.
  destruct (TextFacts.text_detect_returns U text_detector text Hfit)
    as [r Hr].
  rewrite Hr. exists r. split; [reflexivity|].
  destruct (save_outcomes (text_row text r) r)
    as (Hret & Hok & Hjs & Hex & Hco & _).
  split.
  { intros body done H. destruct (Hret body done H)
      as (-> & js & Hj & _ & _ & ->).
    split; [reflexivity|]. now exists js. }
  repeat (split; [assumption|]).
  intros js. cbn [text_row row_ai_probability row_confidence row_analysis
                  content].
  repeat (split; [reflexivity|]). split.
  - unfold len. rewrite length_firstn. lia.
  - intros Hlen. f_equal. apply firstn_all2. unfold len in Hlen. lia.
Qed.

Lemma content_type_allowed_spec t :
  content_type_allowed t = true <->
  t = Some "image/jpeg" \/ t = Some "image/png" \/ t = Some "image/webp".
Proof.
  destruct t as [s|]; simpl.
  - rewrite !orb_true_iff, !String.eqb_eq. split.
    + intros [->|[->|[->|H]]]; auto. discriminate.
    + intros [H|[H|H]]; injection H as ->; auto.
  - split; [discriminate | intros [H|[H|H]]; discriminate].
Qed.

(** X22.  For a request the rate limiter lets through, the image route
    raises 400 "Unsupported image format" exactly when the declared content
    type is missing or none of image/jpeg, image/png and image/webp, and,
    once the upload is read, 400 "File too large" exactly when the type is
    allowed and the upload is longer than MAX_FILE_SIZE.  Every other
    upload, the empty one included, reaches the detector, whose result is
    never the terminal fallback.  The route returns a body only after one
    row of type "image" with the file name, the probability and the
    confidence of that result was inserted and committed; when [json.dumps]
    raises on the analysis, the route ends in that exception and nothing
    was stored. *)
Theorem image_route_validation (file : UploadFile) (data : bytes) :
  limit_exceeded = false ->
  read file = Ok data ->
  let route :=
    detect_image cv opencv_available json_dumps MAX_FILE_SIZE
                 limit_exceeded db file in
  let allowed := upload_content_type file = Some "image/jpeg" \/
                 upload_content_type file = Some "image/png" \/
                 upload_content_type file = Some "image/webp" in
  (route = HTTPException 400 "Unsupported image format" <-> ~ allowed) /\
  (route = HTTPException 400 "File too large" <->
   allowed /\ MAX_FILE_SIZE < len data) /\
  (allowed -> len data <= MAX_FILE_SIZE ->
   exists r,
     ImageAIDetector.detect cv opencv_available data = Ok r /\
     r <> ImageAIDetector.fallback_result /\
     (forall body done,
        route = Return body done ->
        body = r /\
        exists js, json_dumps (analysis r) = Ok js /\
                   done = [Execute (image_row file r js); Commit]) /\
     (forall js, json_dumps (analysis r) = Ok js ->
        execute db (image_row file r js) = Ok tt -> commit db = Ok tt ->
        route = Return r [Execute (image_row file r js); Commit]) /\
     (forall e, json_dumps (analysis r) = Raise e ->
        route = Unhandled e []) /\
     (forall js,
        content_type (image_row file r js) = "image" /\
        file_path (image_row file r js) = filename file /\
        row_ai_probability (image_row file r js) = ai_probability r /\
        row_confidence (image_row file r js) = confidence r)).
Proof.
  intros -> Hread route allowed. unfold route, detect_image.
  pose proof (content_type_allowed_spec (upload_content_type file)) as Hspec.
  fold allowed in Hspec. rewrite Hread.
  destruct (ImageExtras.image_result_is_never_the_fallback_aux cv
              opencv_available data) as (r & Hr & Hnf).
  destruct (save_outcomes (image_row file r) r)
    as (Hret & Hok & Hjs & _ & _ & Hnot).
  destruct (content_type_allowed (upload_content_type file)); cbn [negb].
  - assert (Ha : allowed) by now apply Hspec.
    destruct (Z.gtb_spec (len data) MAX_FILE_SIZE) as [Hgt|Hngt].
    + split; [split; [discriminate | tauto]|].
      split; [split; [split|]; auto; lia|].
      intros _ Hle. lia.
    + rewrite Hr.
      split; [split; [intros Hx; now apply Hnot in Hx | tauto]|].
      split; [split; [intros Hx; now apply Hnot in Hx
                     | intros [_ Hlt]; lia]|].
      intros _ _. exists r. split; [reflexivity|]. split; [exact Hnf|].
      split.
      { intros body done H. destruct (Hret body done H)
          as (-> & js & Hj & _ & _ & ->).
        split; [reflexivity|]. now exists js. }
      split; [exact Hok|]. split; [exact Hjs|].
      intros js. repeat split.
  - assert (Ha : ~ allowed) by (intros H; apply Hspec in H; discriminate).
    split; [split; [intros _; exact Ha | reflexivity]|].
    split; [split; [discriminate | intros [H _]; contradiction]|].
    intros H. contradiction.
Qed.

End Routes.


Lemma text_route_stores_what_it_returns_witness :
  exists r,
    TextAIDetector.detect ascii_only heuristic_detector hi = Ok r /\
    detect_text ascii_only heuristic_detector encodes_everything false
                reliable_session hi =
      Return r [Execute (text_row hi r "{}"); Commit].
Proof.
  destruct (@text_route_stores_what_it_returns ascii_only heuristic_detector
              encodes_everything false reliable_session hi)
    as (r & Hd & _ & Hok & _).
  - vm_compute. reflexivity.
  - reflexivity.
  - reflexivity.
  - exists r. split; [exact Hd|]. now apply Hok.
Defined.

Lemma image_route_validation_witness :
  exists r,
    ImageAIDetector.detect ImageAIDetector.no_codec true garbage = Ok r /\
    detect_image ImageAIDetector.no_codec true encodes_everything 1000000
                 false reliable_session
                 {| upload_content_type := Some "image/png";
                    filename := Some "a.png";
                    read := Ok garbage |} =
      Return r
        [Execute (image_row {| upload_content_type := Some "image/png";
                               filename := Some "a.png";
                               read := Ok garbage |} r "{}");
         Commit].
Proof.
  destruct (@image_route_validation ImageAIDetector.no_codec true
              encodes_everything 1000000 false reliable_session
              {| upload_content_type := Some "image/png";
                 filename := Some "a.png";
                 read := Ok garbage |} garbage eq_refl eq_refl)
    as (_ & _ & H).
  destruct H as (r & Hd & _ & _ & Hok & _).
  - right. left. reflexivity.
  - vm_compute. discriminate.
  - exists r. split; [exact Hd|]. now apply Hok.
Defined.

End RouteFacts.

(** ** The placeholder analysis *)

Module AnalyzeRouterFacts.
Import AnalyzeRouter.

Lemma firstn_prefix {A : Type} (n : nat) (l : list A) :
  exists rest, l = firstn n l ++ rest.
Proof. exists (skipn n l). symmetry. apply firstn_skipn. Qed.

(** X23.  The placeholder confidence is the fifth of the text length kept
    between 2 and 98: it is 2 up to 14 characters, 98 from 490 characters
    on, and never decreases when the text gets longer.  The label is the
    text cut after 80 characters. *)
Theorem placeholder_confidence_range (text text' : str) :
  let c := result_confidence (result (analyze_text text)) in
  2 <= c <= 98 /\
  (c = 2 <-> len text < 15) /\
  (c = 98 <-> 490 <= len text) /\
  (15 <= len text < 490 -> c = len text / 5) /\
  (len text <= len text' ->
   c <= result_confidence (result (analyze_text text'))) /\
  len (inputLabel (analyze_text text)) = Z.min 80 (len text) /\
  (exists rest, text = inputLabel (analyze_text text) ++ rest).
Proof.
  cbn [analyze_text result result_confidence inputLabel].
  pose proof (TextFacts.len_nonneg text) as H0.
  pose proof (Z.div_le_mono (len text) (len text') 5 ltac:(lia)) as Hmono.
  assert (Hlo : len text < 15 <-> len text / 5 < 3).
  { split; intros H.
    - apply Z.div_lt_upper_bound; lia.
    - destruct (Z.lt_ge_cases (len text) 15) as [|Hge]; [assumption|].
      pose proof (Z.div_le_mono 15 (len text) 5 ltac:(lia) Hge) as Hd.
      change (15 / 5) with 3 in Hd. lia. }
  assert (Hhi : 490 <= len text <-> 98 <= len text / 5).
  { split; intros H.
    - pose proof (Z.div_le_mono 490 (len text) 5 ltac:(lia) H) as Hd.
      change (490 / 5) with 98 in Hd. lia.
    - destruct (Z.lt_ge_cases (len text) 490) as [Hlt|]; [|assumption].
      assert (len text / 5 < 98) by (apply Z.div_lt_upper_bound; lia). lia. }
  repeat split; try lia.
  - unfold len. rewrite length_firstn. lia.
  - apply firstn_prefix.
Qed.

End AnalyzeRouterFacts.

(** ** The text detector on blank and on uniform texts *)

Module TextEdgeCases.
Import TextAIDetector TextFacts.

Lemma runs_from_none p s :
  forallb (fun c => negb (p c)) s = true -> runs_from p [] s = [].
Proof.
  induction s as [|c s IH]; simpl; [reflexivity|].
  destruct (p c); simpl; [discriminate | exact IH].
Qed.

Lemma runs_some p s : existsb p s = true -> runs p s <> [].
Proof.
  intros He Hnil.
  pose proof (StringFacts.runs_from_concat p [] s) as Hc.
  fold (runs p s) in Hc. rewrite Hnil in Hc. simpl in Hc.
  apply existsb_exists in He. destruct He as (c & Hin & Hp).
  assert (Hf : In c (filter p s)) by (apply filter_In; now split).
  rewrite <- Hc in Hf. exact Hf.
Qed.

Lemma sum_R_constant (l : list Z) (L : Z) :
  (forall x, In x l -> x = L) ->
  sum_R (map IZR l) = (IZR (len l) * IZR L)%R.
Proof.
  unfold len. induction l as [|x l IH]; intros H.
  - unfold sum_R. simpl. lra.
  - specialize (IH (fun y Hy => H y (or_intror Hy))).
    change (List.length (x :: l)) with (S (List.length l)).
    rewrite Nat2Z.inj_succ, succ_IZR.
    rewrite (H x (or_introl eq_refl)) at 1.
    unfold sum_R in *. cbn [map fold_right]. rewrite IH. lra.
Qed.

Lemma sum_R_zero (l : list Z) (m : R) :
  (forall x, In x l -> IZR x = m) ->
  sum_R (map (fun x => (IZR x - m) * (IZR x - m))%R l) = 0%R.
Proof.
  induction l as [|x l IH]; intros H.
  - reflexivity.
  - specialize (IH (fun y Hy => H y (or_intror Hy))).
    unfold sum_R in *. simpl. rewrite IH, (H x (or_introl eq_refl)). lra.
Qed.

Section EdgeCases.

Variable U : UnicodeDB.

Lemma ascii_blank_is_ascii s :
  forallb ascii_space s = true -> forallb is_ascii s = true.
Proof.
  rewrite !forallb_forall. intros H c Hc. specialize (H c Hc).
  unfold ascii_space in H. rewrite orb_true_iff in H.
  rewrite !StringFacts.between_spec in H.
  unfold is_ascii. apply N.ltb_lt. lia.
Qed.

Lemma ascii_blank_lower s :
  forallb ascii_space s = true -> lower U s = s.
Proof.
  intros H. unfold lower. rewrite (ascii_blank_is_ascii s H).
  rewrite <- (map_id s) at 2. apply map_ext_in. intros c Hc.
  rewrite forallb_forall in H. specialize (H c Hc).
  unfold ascii_space in H. rewrite orb_true_iff in H.
  rewrite !StringFacts.between_spec in H.
  unfold ascii_lower.
  destruct (between 65 90 c) eqn:E; [|reflexivity].
  apply StringFacts.between_spec in E. lia.
Qed.

Lemma ascii_blank_no_words s :
  forallb ascii_space s = true -> findall_words U s = [].
Proof.
  intros H. unfold findall_words, runs. apply runs_from_none.
  pose proof (ascii_blank_is_ascii s H) as Ha.
  rewrite forallb_forall in *. intros c Hc.
  specialize (Ha c Hc). specialize (H c Hc). unfold is_word. rewrite Ha.
  unfold ascii_space in H. rewrite orb_true_iff in H.
  rewrite !StringFacts.between_spec in H.
  apply negb_true_iff. apply not_true_iff_false. unfold ascii_word.
  rewrite !orb_true_iff, !StringFacts.between_spec, N.eqb_eq. lia.
Qed.

Lemma ascii_blank_is_space s :
  forallb ascii_space s = true -> forallb (is_space U) s = true.
Proof.
  intros H. pose proof (ascii_blank_is_ascii s H) as Ha.
  rewrite forallb_forall in *. intros c Hc.
  unfold is_space. rewrite (Ha c Hc). now apply H.
Qed.

(** X24.  A text of ASCII blanks only, the empty text among them, is
    answered without any exception by the neutral result: no word, no
    sentence, the four scores at 0.5, probability 0.5, confidence 0.3. *)
Theorem blank_text_gets_neutral_result (text : str) :
  forallb ascii_space text = true ->
  exists f r,
    extract_writing_features U text = Ok f /\
    word_count f = 0 /\ sentence_count f = 0 /\
    analyze_repetition U text = Ok 0.5%R /\
    analyze_vocabulary_diversity U text = Ok 0.5%R /\
    analyze_sentence_structure U text = Ok 0.5%R /\
    calculate_perplexity U text = Ok 0.5%R /\
    heuristic_detection U text = Ok r /\
    ai_probability r = 0.5%R /\
    confidence r = 0.3%R.
Proof.
  intros Hb.
  assert (Hw : findall_words U (lower U text) = []).
  { rewrite ascii_blank_lower by exact Hb. now apply ascii_blank_no_words. }
  assert (Hs : nonblank_sentences U text = []).
  { unfold nonblank_sentences.
    rewrite (proj2 (StringFacts.strip_nil_iff U text))
      by now apply ascii_blank_is_space.
    reflexivity. }
  destruct (extract_writing_features_returns U text) as (f & Hf & Hwc & Hsc).
  rewrite Hw in Hwc. rewrite Hs in Hsc.
  assert (Hrep : analyze_repetition U text = Ok 0.5%R)
    by (unfold analyze_repetition; now rewrite Hw).
  assert (Hvoc : analyze_vocabulary_diversity U text = Ok 0.5%R)
    by (unfold analyze_vocabulary_diversity; now rewrite Hw).
  assert (Hst : analyze_sentence_structure U text = Ok 0.5%R).
  { unfold analyze_sentence_structure. cbv zeta.
    unfold nonblank_sentences in Hs. now rewrite Hs. }
  assert (Hpp : calculate_perplexity U text = Ok 0.5%R)
    by (unfold calculate_perplexity; now rewrite Hw).
  exists f, (heuristic_result f 0.5 0.5 0.5 0.5).
  repeat (split; [assumption|]).
  split; [now apply heuristic_detection_steps|].
  cbn [ai_probability confidence heuristic_result]. split.
  - unfold fusion, clamp, Rmin, Rmax.
    destruct (Rle_dec 0 _); destruct (Rle_dec 1 _); lra.
  - rewrite Hwc. reflexivity.
Qed.

Lemma kept_sentence_has_a_token s :
  truthy (strip U s) = true -> 1 <= len (split U (strip U s)).
Proof.
  intros Ht.
  assert (Hne : split U (strip U s) <> []).
  { apply runs_some.
    destruct (strip U s) as [|c t] eqn:Hs; [discriminate|].
    pose proof (StringFacts.strip_ends U s) as [Hhd _]. rewrite Hs in Hhd.
    simpl. now rewrite Hhd. }
  unfold len. destruct (split U (strip U s)); [congruence|]. simpl. lia.
Qed.

Lemma sum_R_at_least_len (l : list Z) :
  (forall x, In x l -> 1 <= x) -> (IZR (len l) <= sum_R (map IZR l))%R.
Proof.
  unfold len. induction l as [|x l IH]; intros H.
  - unfold sum_R. simpl. lra.
  - specialize (IH (fun y Hy => H y (or_intror Hy))).
    pose proof (IZR_le _ _ (H x (or_introl eq_refl))) as Hx.
    change (List.length (x :: l)) with (S (List.length l)).
    rewrite Nat2Z.inj_succ, succ_IZR.
    unfold sum_R in *. cbn [map fold_right]. lra.
Qed.

(** X25.  Each sentence the structure analyzer keeps has at least one
    token.  With two sentences or more the mean length is therefore at
    least 1, the branch that sets the coefficient of variation to 1 is
    never taken, and the score is [max(0, 1 - std / mean)].  When moreover
    all sentences have the same number of tokens, the score is 1, the
    largest there is. *)
Theorem structure_score_of_kept_sentences (text : str) :
  let sentences :=
    map (strip U) (filter (fun s => truthy (strip U s))
                          (re_split (strip U text))) in
  let lengths := map (fun s => len (split U s)) sentences in
  (forall s, In s sentences -> 1 <= len (split U s)) /\
  (2 <= len sentences ->
     (1 <= np_mean lengths)%R /\
     analyze_sentence_structure U text =
       Ok (py_max 0.0 (1.0 - np_std lengths / np_mean lengths))) /\
  (forall L, 2 <= len sentences ->
     (forall s, In s sentences -> len (split U s) = L) ->
     analyze_sentence_structure U text = Ok 1%R).
Proof.
  intros sentences lengths.
  assert (Htok : forall s, In s sentences -> 1 <= len (split U s)).
  { intros s Hin. unfold sentences in Hin. apply in_map_iff in Hin.
    destruct Hin as (s0 & <- & Hf). apply filter_In in Hf.
    destruct Hf as [_ Ht]. now apply kept_sentence_has_a_token. }
  assert (Hn : len lengths = len sentences)
    by (unfold lengths, len; now rewrite length_map).
  assert (Hmean : 2 <= len sentences -> (1 <= np_mean lengths)%R).
  { intros Hlen.
    assert (Hpos : (0 < IZR (len lengths))%R) by (apply IZR_lt; lia).
    assert (Hsum : (IZR (len lengths) <= sum_R (map IZR lengths))%R).
    { apply sum_R_at_least_len. intros x Hx. unfold lengths in Hx.
      apply in_map_iff in Hx. destruct Hx as (s & <- & Hs). now apply Htok. }
    unfold np_mean, np_mean_R. unfold len at 1. rewrite length_map.
    fold (len lengths).
    apply Rmult_le_reg_r with (r := IZR (len lengths)); [exact Hpos|].
    unfold Rdiv. rewrite Rmult_assoc, Rinv_l by lra. lra. }
  assert (Hvalue : 2 <= len sentences ->
            analyze_sentence_structure U text =
              Ok (py_max 0.0 (1.0 - np_std lengths / np_mean lengths))).
  { intros Hlen. specialize (Hmean Hlen).
    unfold analyze_sentence_structure. cbv zeta. fold sentences.
    destruct (Z.ltb_spec (len sentences) 2); [lia|]. fold lengths.
    destruct (Rlt_dec 0 (np_mean lengths)); [reflexivity | lra]. }
  split; [exact Htok|]. split; [intros Hlen; split; auto|].
  intros L Hlen Hall. rewrite (Hvalue Hlen).
  assert (HL : forall x, In x lengths -> x = L).
  { intros x Hx. apply in_map_iff in Hx. destruct Hx as (s & <- & Hs).
    now apply Hall. }
  assert (Hpos : (0 < IZR (len lengths))%R) by (apply IZR_lt; lia).
  assert (Hm : np_mean lengths = IZR L).
  { unfold np_mean, np_mean_R. rewrite (@sum_R_constant lengths L HL).
    unfold len at 2. rewrite length_map. fold (len lengths). field. lra. }
  assert (Hstd : np_std lengths = 0%R).
  { unfold np_std. cbv zeta. rewrite Hm. unfold np_mean_R.
    rewrite (@sum_R_zero lengths (IZR L))
      by (intros x Hx; now rewrite (HL x Hx)).
    unfold Rdiv. rewrite Rmult_0_l. apply sqrt_0. }
  rewrite Hstd. f_equal. unfold py_max, Rdiv. rewrite Rmult_0_l.
  destruct (Rlt_dec _ _); lra.
Qed.

End EdgeCases.

Lemma blank_text_gets_neutral_result_witness :
  exists f r,
    extract_writing_features ascii_only (str_of "  ") = Ok f /\
    word_count f = 0 /\ sentence_count f = 0 /\
    analyze_repetition ascii_only (str_of "  ") = Ok 0.5%R /\
    analyze_vocabulary_diversity ascii_only (str_of "  ") = Ok 0.5%R /\
    analyze_sentence_structure ascii_only (str_of "  ") = Ok 0.5%R /\
    calculate_perplexity ascii_only (str_of "  ") = Ok 0.5%R /\
    heuristic_detection ascii_only (str_of "  ") = Ok r /\
    ai_probability r = 0.5%R /\
    confidence r = 0.3%R.
Proof.
  apply blank_text_gets_neutral_result. reflexivity.
Defined.

Lemma structure_score_of_kept_sentences_witness :
  analyze_sentence_structure ascii_only hi_smiley = Ok 1%R.
Proof.
  apply (proj2 (proj2 (@structure_score_of_kept_sentences ascii_only
                         hi_smiley)) 1).
  - vm_compute. discriminate.
  - vm_compute. intros s [<- | [<- | []]]; reflexivity.
Defined.

End TextEdgeCases.
